(** * Invoice service ([src/main.py]): validation, persistence and handlers

    A shallow embedding of the single source file of the repository.

    - Python [float] is IEEE binary64: the kernel's primitive floats, with
      [PrimFloat.mul], [PrimFloat.add] and [PrimFloat.eqb] (so [!=] is the
      negation of IEEE equality, and NaN differs from itself).
    - A body is a record of its fields as they come in: a key is absent,
      holds a value that the declared type does not accept, or holds one that
      it accepts, given as the value of that type. The elements of a list
      are objects.
    - [field_validator] (line 2) is pydantic 2: a validator declared
      [(cls, v, values)] is called once its field has a value of the
      declared type, and [values] is a [ValidationInfo]. That object supports
      neither [in], nor subscription, nor [.get]: the first raises
      [TypeError], the last [AttributeError]. A [ValueError] raised by a
      validator becomes an error of the validation; any other exception
      leaves the validation, and the request is answered 500.
    - [response_model] validates what a handler returns with the same
      schema, validators included.
    - The three tables are lists of rows in insertion order; a session works
      on its own view of them, [commit] publishes the view and closing the
      session drops what was not committed.
    - [uuid4] is a source of strings indexed by the number of draws so far.
      The [id] default of a row is drawn when the row is inserted, at the
      flush; the flush of [db.commit()] writes the new rows of
      [invoice_billsundry] before those of [invoice_items].
    - A row of a table holds the floats the INSERT or UPDATE was given. What
      a read returns for a [Numeric] column is a [Decimal] made by the
      column type from what SQLite kept; that conversion, and the float
      pydantic makes of a [Decimal], are parameters of the development. A NaN
      is kept as NULL by SQLite, which a NOT NULL column refuses. *)

From Stdlib Require Import Floats.PrimFloat.
From stdpp Require Import gmap strings list.

Open Scope string_scope.
Open Scope list_scope.

(** ** Persistence schema (lines 17-46) *)

Module InvoiceHeader.
Record t := mk {
    id : string;
    date : string;
    invoice_number : option Z;
    customer_name : string;
    billing_address : string;
    shipping_address : string;
    gstin : option string;
    total_amount : float
  }.
End InvoiceHeader.

Module InvoiceItem.
Record t := mk {
    id : string;
    item_name : string;
    quantity : float;
    price : float;
    amount : float;
    invoice_id : option string
  }.
End InvoiceItem.

Module InvoiceBillSundry.
Record t := mk {
    id : string;
    bill_sundry_name : string;
    amount : float;
    invoice_id : option string
  }.
End InvoiceBillSundry.

Record Database := {
  invoice_headers : list InvoiceHeader.t;
  invoice_items : list InvoiceItem.t;
  invoice_billsundry : list InvoiceBillSundry.t
}.

(** [Base.metadata.create_all] on a file that does not exist yet. *)
Definition create_all : Database :=
  {| invoice_headers := []; invoice_items := []; invoice_billsundry := [] |}.

(** An [InvoiceHeader] object loaded from its row: the [Numeric] column
    comes back as a [Decimal]. *)
Module InvoiceHeaderObject.
Record t (Decimal : Type) := mk {
    id : string;
    date : string;
    invoice_number : option Z;
    customer_name : string;
    billing_address : string;
    shipping_address : string;
    gstin : option string;
    total_amount : Decimal
  }.
Arguments mk {Decimal}.
Arguments id {Decimal}.
Arguments date {Decimal}.
Arguments invoice_number {Decimal}.
Arguments customer_name {Decimal}.
Arguments billing_address {Decimal}.
Arguments shipping_address {Decimal}.
Arguments gstin {Decimal}.
Arguments total_amount {Decimal}.
End InvoiceHeaderObject.

(** ** Pydantic schemas (lines 51-85) *)

(** A field of a body as it comes in. *)
Inductive input (A : Type) :=
| Absent
| Unfit
| Given (a : A).
Arguments Absent {A}.
Arguments Unfit {A}.
Arguments Given {A}.

Module InvoiceItemSchema.
Record t := mk {
    item_name : string;
    quantity : float;
    price : float;
    amount : float
  }.
Record body := mk_body {
    item_name' : input string;
    quantity' : input float;
    price' : input float;
    amount' : input float
  }.
End InvoiceItemSchema.

Module InvoiceBillSundrySchema.
Record t := mk {
    bill_sundry_name : string;
    amount : float
  }.
Record body := mk_body {
    bill_sundry_name' : input string;
    amount' : input float
  }.
End InvoiceBillSundrySchema.

Module InvoiceHeaderSchema.
Record t := mk {
    date : string;
    customer_name : string;
    billing_address : string;
    shipping_address : string;
    gstin : string;
    items : list InvoiceItemSchema.t;
    billsundries : list InvoiceBillSundrySchema.t;
    total_amount : float
  }.
Record body := mk_body {
    date' : input string;
    customer_name' : input string;
    billing_address' : input string;
    shipping_address' : input string;
    gstin' : input string;
    items' : input (list InvoiceItemSchema.body);
    billsundries' : input (list InvoiceBillSundrySchema.body);
    total_amount' : input float
  }.
End InvoiceHeaderSchema.

(** The Python values of validated fields. *)
Inductive pyval :=
| PyStr (s : string)
| PyFloat (x : float)
| PyItems (l : list InvoiceItemSchema.t)
| PyBills (l : list InvoiceBillSundrySchema.t).

Inductive PyError :=
| ValueError (msg : string)
| TypeError (msg : string)
| AttributeError (msg : string)
| KeyError (key : string).

#[global] Instance PyError_ret : MRet (sum PyError) := λ A a, inr a.

#[global] Instance PyError_bind : MBind (sum PyError) := λ A B f x,
  match x with
  | inl e => inl e
  | inr a => f a
  end.

(** What a function can be handed as [values]: a [dict], or the
    [ValidationInfo] of pydantic 2, which keeps the fields validated so far
    in its attribute [data]. *)
Inductive pyobj :=
| PyDict (d : gmap string pyval)
| ValidationInfo (data : gmap string pyval).

(** [key in o]. *)
Definition py_in (key : string) (o : pyobj) : PyError + bool :=
  match o with
  | PyDict d => inr (bool_decide (is_Some (d !! key)))
  | ValidationInfo _ =>
      inl (TypeError "argument of type 'ValidationInfo' is not iterable")
  end.

(** [o[key]]. *)
Definition py_getitem (o : pyobj) (key : string) : PyError + pyval :=
  match o with
  | PyDict d =>
      match d !! key with
      | Some x => inr x
      | None => inl (KeyError key)
      end
  | ValidationInfo _ =>
      inl (TypeError "'ValidationInfo' object is not subscriptable")
  end.

(** [o.get(key, default)]. *)
Definition py_get (o : pyobj) (key : string) (default : pyval)
  : PyError + pyval :=
  match o with
  | PyDict d =>
      match d !! key with
      | Some x => inr x
      | None => inr default
      end
  | ValidationInfo _ =>
      inl (AttributeError "'ValidationInfo' object has no attribute 'get'")
  end.

(** [a * b] on Python values: defined on two floats. *)
Definition py_mul (a b : pyval) : PyError + float :=
  match a, b with
  | PyFloat x, PyFloat y => inr (x * y)%float
  | _, _ => inl (TypeError "unsupported operand type(s) for *")
  end.

(** [a != b] on floats. *)
Definition py_ne (a b : float) : bool := negb (PrimFloat.eqb a b).

(** [sum(xs)]: from 0, left to right. *)
Definition py_sum (xs : list float) : float :=
  fold_left PrimFloat.add xs 0%float.

(** Lines 57-63. *)
Definition validate_amount (v : float) (values : pyobj) : PyError + float :=
  has_quantity ← py_in "quantity" values;
  if has_quantity : bool then
    has_price ← py_in "price" values;
    if has_price : bool then
      quantity ← py_getitem values "quantity";
      price ← py_getitem values "price";
      expected_amount ← py_mul quantity price;
      if py_ne v expected_amount
      then inl (ValueError "Amount must be equal to Quantity * Price")
      else inr v
    else inr v
  else inr v.

(** [x.amount for x in lines]. *)
Definition amounts_of (lines : pyval) : PyError + list float :=
  match lines with
  | PyItems l => inr (InvoiceItemSchema.amount <$> l)
  | PyBills l => inr (InvoiceBillSundrySchema.amount <$> l)
  | PyStr EmptyString => inr []
  | PyStr _ => inl (AttributeError "'str' object has no attribute 'amount'")
  | PyFloat _ => inl (TypeError "'float' object is not iterable")
  end.

(** Lines 79-85. *)
Definition validate_total_amount (v : float) (values : pyobj)
  : PyError + float :=
  items ← py_get values "items" (PyItems []);
  item_amounts ← amounts_of items;
  let item_total := py_sum item_amounts in
  billsundries ← py_get values "billsundries" (PyBills []);
  bill_amounts ← amounts_of billsundries;
  let billsundry_total := py_sum bill_amounts in
  if py_ne v (item_total + billsundry_total)%float
  then inl (ValueError
    "TotalAmount must be the sum of InvoiceItems' and InvoiceBillSundrys' amounts.")
  else inr v.

(** ** Model validation

    Fields are validated in declaration order. A field that is absent or
    unfit adds an error and its validator is not called. A field with a
    value and a validator has the validator called with the value and a
    [ValidationInfo]; what it returns is stored under the field's name, a
    [ValueError] it raises is added to the errors, and any other exception
    ends the validation. *)

Inductive loc_elem :=
| Key (k : string)
| Index (i : nat).

Inductive error_type :=
| Missing
| WrongType
| Raised (e : PyError).

Record ErrorDetail := {
  loc : list loc_elem;
  err : error_type
}.

Record Validation := {
  values : gmap string pyval;
  errors : list ErrorDetail
}.

(** The outcome of validating a model. *)
Inductive Validated (T : Type) :=
| Instance (t : T)
| ValidationError (errors : list ErrorDetail)
| Uncaught (e : PyError).
Arguments Instance {T}.
Arguments ValidationError {T}.
Arguments Uncaught {T}.

Definition begin_validation : PyError + Validation :=
  inr {| values := ∅; errors := [] |}.

Definition add_errors (es : list ErrorDetail) (st : Validation) : Validation :=
  {| values := values st; errors := errors st ++ es |}.

Definition set_value (name : string) (v : pyval) (st : Validation) : Validation :=
  {| values := <[name := v]> (values st); errors := errors st |}.

Definition field {A} (name : string) (inj : A → pyval) (raw : input A)
    (validator : option (A → pyobj → PyError + A))
    (st : PyError + Validation) : PyError + Validation :=
  st ← st;
  match raw with
  | Absent => inr (add_errors [{| loc := [Key name]; err := Missing |}] st)
  | Unfit => inr (add_errors [{| loc := [Key name]; err := WrongType |}] st)
  | Given v =>
      match validator with
      | None => inr (set_value name (inj v) st)
      | Some f =>
          match f v (ValidationInfo (values st)) with
          | inr v' => inr (set_value name (inj v') st)
          | inl (ValueError msg) =>
              inr (add_errors
                     [{| loc := [Key name]; err := Raised (ValueError msg) |}] st)
          | inl e => inl e
          end
      end
  end.

Definition under (p : loc_elem) (e : ErrorDetail) : ErrorDetail :=
  {| loc := p :: loc e; err := err e |}.

(** A [List[Model]] field: the elements are validated in order, the errors
    of element [i] are reported under index [i]; an exception that leaves
    the validation of an element leaves that of the list. *)
Fixpoint validate_list {B T} (validate : B → Validated T)
    (i : nat) (l : list B) : Validated (list T) :=
  match l with
  | [] => Instance []
  | b :: l' =>
      match validate b with
      | Uncaught e => Uncaught e
      | ValidationError es =>
          match validate_list validate (S i) l' with
          | Uncaught e => Uncaught e
          | ValidationError es' =>
              ValidationError ((under (Index i) <$> es) ++ es')
          | Instance _ => ValidationError (under (Index i) <$> es)
          end
      | Instance t =>
          match validate_list validate (S i) l' with
          | Uncaught e => Uncaught e
          | ValidationError es' => ValidationError es'
          | Instance ts => Instance (t :: ts)
          end
      end
  end.

Definition list_field {B T} (name : string) (inj : list T → pyval)
    (validate : B → Validated T) (raw : input (list B))
    (st : PyError + Validation) : PyError + Validation :=
  st ← st;
  match raw with
  | Absent => inr (add_errors [{| loc := [Key name]; err := Missing |}] st)
  | Unfit => inr (add_errors [{| loc := [Key name]; err := WrongType |}] st)
  | Given l =>
      match validate_list validate 0 l with
      | Instance ts => inr (set_value name (inj ts) st)
      | ValidationError es => inr (add_errors (under (Key name) <$> es) st)
      | Uncaught e => inl e
      end
  end.

(** The fields of an item validated before [amount] (lines 52-54). *)
Definition InvoiceItemSchema_siblings (b : InvoiceItemSchema.body)
  : PyError + Validation :=
  field "price" PyFloat (InvoiceItemSchema.price' b) None
    (field "quantity" PyFloat (InvoiceItemSchema.quantity' b) None
      (field "item_name" PyStr (InvoiceItemSchema.item_name' b) None
        begin_validation)).

Definition InvoiceItemSchema_model_validate (b : InvoiceItemSchema.body)
  : Validated InvoiceItemSchema.t :=
  match field "amount" PyFloat (InvoiceItemSchema.amount' b)
          (Some validate_amount) (InvoiceItemSchema_siblings b) with
  | inl e => Uncaught e
  | inr st =>
      match errors st, values st !! "item_name", values st !! "quantity",
            values st !! "price", values st !! "amount" with
      | [], Some (PyStr n), Some (PyFloat q), Some (PyFloat p),
        Some (PyFloat a) => Instance (InvoiceItemSchema.mk n q p a)
      | es, _, _, _, _ => ValidationError es
      end
  end.

Definition InvoiceBillSundrySchema_model_validate
    (b : InvoiceBillSundrySchema.body)
  : Validated InvoiceBillSundrySchema.t :=
  match field "amount" PyFloat (InvoiceBillSundrySchema.amount' b) None
          (field "bill_sundry_name" PyStr
             (InvoiceBillSundrySchema.bill_sundry_name' b) None
             begin_validation) with
  | inl e => Uncaught e
  | inr st =>
      match errors st, values st !! "bill_sundry_name",
            values st !! "amount" with
      | [], Some (PyStr n), Some (PyFloat a) =>
          Instance (InvoiceBillSundrySchema.mk n a)
      | es, _, _ => ValidationError es
      end
  end.

(** The fields of a header validated before [total_amount] (lines 70-76). *)
Definition InvoiceHeaderSchema_siblings (b : InvoiceHeaderSchema.body)
  : PyError + Validation :=
  list_field "billsundries" PyBills InvoiceBillSundrySchema_model_validate
     (InvoiceHeaderSchema.billsundries' b)
  (list_field "items" PyItems InvoiceItemSchema_model_validate
     (InvoiceHeaderSchema.items' b)
  (field "gstin" PyStr (InvoiceHeaderSchema.gstin' b) None
  (field "shipping_address" PyStr (InvoiceHeaderSchema.shipping_address' b)
     None
  (field "billing_address" PyStr (InvoiceHeaderSchema.billing_address' b)
     None
  (field "customer_name" PyStr (InvoiceHeaderSchema.customer_name' b) None
  (field "date" PyStr (InvoiceHeaderSchema.date' b) None
     begin_validation)))))).

Definition InvoiceHeaderSchema_model_validate (b : InvoiceHeaderSchema.body)
  : Validated InvoiceHeaderSchema.t :=
  match field "total_amount" PyFloat (InvoiceHeaderSchema.total_amount' b)
          (Some validate_total_amount) (InvoiceHeaderSchema_siblings b) with
  | inl e => Uncaught e
  | inr st =>
      let v := values st in
      match errors st,
            v !! "date", v !! "customer_name", v !! "billing_address",
            v !! "shipping_address", v !! "gstin", v !! "items",
            v !! "billsundries", v !! "total_amount" with
      | [], Some (PyStr d), Some (PyStr c), Some (PyStr ba), Some (PyStr sa),
        Some (PyStr g), Some (PyItems its), Some (PyBills bs),
        Some (PyFloat t) =>
          Instance (InvoiceHeaderSchema.mk d c ba sa g its bs t)
      | es, _, _, _, _, _, _, _, _ => ValidationError es
      end
  end.

(** ** Sessions (lines 10-13 and 87-92)

    A handler runs in a session of its own. Statements act on the session's
    view of the tables; [commit] publishes the view; an exception leaves the
    handler at once, and closing the session drops an unpublished view. *)

Record Session := {
  committed : Database;
  view : Database;
  uuid_source : nat → string;
  uuid_calls : nat
}.

Inductive Exception :=
| HTTPException (status_code : Z) (detail : string)
| IntegrityError (constraint : string)
| InvalidRequestError.

Definition Handler (A : Type) : Type := Session → (Exception + A) * Session.

#[global] Instance Handler_ret : MRet Handler := λ A a s, (inr a, s).

#[global] Instance Handler_bind : MBind Handler := λ A B f m s,
  match m s with
  | (inr a, s') => f a s'
  | (inl e, s') => (inl e, s')
  end.

Definition raise {A} (e : Exception) : Handler A := λ s, (inl e, s).

Definition get_view : Handler Database := λ s, (inr (view s), s).

Definition put_view (d : Database) : Handler unit := λ s,
  (inr (),
   {| committed := committed s; view := d;
      uuid_source := uuid_source s; uuid_calls := uuid_calls s |}).

(** [str(uuid4())]. *)
Definition uuid4 : Handler string := λ s,
  (inr (uuid_source s (uuid_calls s)),
   {| committed := committed s; view := view s;
      uuid_source := uuid_source s; uuid_calls := S (uuid_calls s) |}).

(** [db.commit()]. *)
Definition commit : Handler unit := λ s,
  (inr (),
   {| committed := view s; view := view s;
      uuid_source := uuid_source s; uuid_calls := uuid_calls s |}).

(** [for x in xs: body(x)]. *)
Fixpoint for_each {A} (xs : list A) (body : A → Handler unit) : Handler unit :=
  match xs with
  | [] => mret ()
  | x :: xs' => body x ;; for_each xs' body
  end.

(** *** Statements *)

(** [db.query(InvoiceHeader).filter(InvoiceHeader.id == invoice_id).first()]. *)
Definition first_header (invoice_id : string) (d : Database)
  : option InvoiceHeader.t :=
  head (filter (λ h, InvoiceHeader.id h = invoice_id) (invoice_headers d)).

Definition query_first_header (invoice_id : string)
  : Handler (option InvoiceHeader.t) :=
  d ← get_view; mret (first_header invoice_id d).

(** The rows a header's relationships load. *)
Definition items_of (invoice_id : string) (d : Database) : list InvoiceItem.t :=
  filter (λ r, InvoiceItem.invoice_id r = Some invoice_id) (invoice_items d).

Definition billsundries_of (invoice_id : string) (d : Database)
  : list InvoiceBillSundry.t :=
  filter (λ r, InvoiceBillSundry.invoice_id r = Some invoice_id)
    (invoice_billsundry d).

(** INSERT into [invoice_headers]: [total_amount] is NOT NULL, the primary
    key [id] and the UNIQUE column [invoice_number] (where it is not NULL)
    must be new. *)
Definition insert_header (row : InvoiceHeader.t) : Handler unit :=
  d ← get_view;
  if PrimFloat.is_nan (InvoiceHeader.total_amount row)
  then raise (IntegrityError "invoice_headers.total_amount")
  else if bool_decide (InvoiceHeader.id row ∈ InvoiceHeader.id <$> invoice_headers d)
  then raise (IntegrityError "invoice_headers.id")
  else if bool_decide (is_Some (InvoiceHeader.invoice_number row) ∧
            InvoiceHeader.invoice_number row ∈
              InvoiceHeader.invoice_number <$> invoice_headers d)
  then raise (IntegrityError "invoice_headers.invoice_number")
  else put_view {| invoice_headers := invoice_headers d ++ [row];
                   invoice_items := invoice_items d;
                   invoice_billsundry := invoice_billsundry d |}.

(** INSERT into [invoice_items]: [quantity], [price] and [amount] are NOT
    NULL, the primary key must be new. *)
Definition insert_item (row : InvoiceItem.t) : Handler unit :=
  d ← get_view;
  if PrimFloat.is_nan (InvoiceItem.quantity row)
     || PrimFloat.is_nan (InvoiceItem.price row)
     || PrimFloat.is_nan (InvoiceItem.amount row)
  then raise (IntegrityError "invoice_items")
  else if bool_decide (InvoiceItem.id row ∈ InvoiceItem.id <$> invoice_items d)
  then raise (IntegrityError "invoice_items.id")
  else put_view {| invoice_headers := invoice_headers d;
                   invoice_items := invoice_items d ++ [row];
                   invoice_billsundry := invoice_billsundry d |}.

Definition insert_billsundry (row : InvoiceBillSundry.t) : Handler unit :=
  d ← get_view;
  if PrimFloat.is_nan (InvoiceBillSundry.amount row)
  then raise (IntegrityError "invoice_billsundry.amount")
  else if bool_decide (InvoiceBillSundry.id row ∈
                         InvoiceBillSundry.id <$> invoice_billsundry d)
  then raise (IntegrityError "invoice_billsundry.id")
  else put_view {| invoice_headers := invoice_headers d;
                   invoice_items := invoice_items d;
                   invoice_billsundry := invoice_billsundry d ++ [row] |}.

(** [db.add(InvoiceHeader(...)); db.flush()] (lines 96-105): the [id]
    default is drawn and the row inserted. No default and no statement of
    the source gives [invoice_number] a value, and [autoincrement] acts on
    an integer primary key only, which [invoice_number] is not: the column
    is left NULL. *)
Definition add_InvoiceHeader (date customer_name billing_address
    shipping_address gstin : string) (total_amount : float)
  : Handler InvoiceHeader.t :=
  id ← uuid4;
  let row := InvoiceHeader.mk id date None customer_name billing_address
               shipping_address (Some gstin) total_amount in
  insert_header row ;; mret row.

(** A new line handed to [db.add]: it waits in the session, without an
    [id], until the next flush. *)
Inductive Pending :=
| NewInvoiceItem (item_name : string) (quantity price amount : float)
    (invoice : InvoiceHeader.t)
| NewInvoiceBillSundry (bill_sundry_name : string) (amount : float)
    (invoice : InvoiceHeader.t).

(** The INSERT of a pending line: the [id] default is drawn and the row
    written, with the key of the header it was given as [invoice]. *)
Definition flush_InvoiceItem (item_name : string)
    (quantity price amount : float) (invoice : InvoiceHeader.t)
  : Handler unit :=
  id ← uuid4;
  insert_item (InvoiceItem.mk id item_name quantity price amount
                 (Some (InvoiceHeader.id invoice))).

Definition flush_InvoiceBillSundry (bill_sundry_name : string)
    (amount : float) (invoice : InvoiceHeader.t) : Handler unit :=
  id ← uuid4;
  insert_billsundry (InvoiceBillSundry.mk id bill_sundry_name amount
                       (Some (InvoiceHeader.id invoice))).

(** The flush of the pending lines: the rows of [invoice_billsundry] first,
    then those of [invoice_items], each table in the order of the [db.add]
    calls. *)
Definition flush (pending : list Pending) : Handler unit :=
  for_each pending (λ obj,
    match obj with
    | NewInvoiceBillSundry n a invoice => flush_InvoiceBillSundry n a invoice
    | NewInvoiceItem _ _ _ _ _ => mret ()
    end) ;;
  for_each pending (λ obj,
    match obj with
    | NewInvoiceItem n q p a invoice => flush_InvoiceItem n q p a invoice
    | NewInvoiceBillSundry _ _ _ => mret ()
    end).

(** The two loops of lines 107-123 and of lines 157-173: every item, then
    every bill sundry, is made a line of [db_invoice] and handed to
    [db.add]. *)
Definition add_lines (invoice : InvoiceHeaderSchema.t)
    (db_invoice : InvoiceHeader.t) : list Pending :=
  ((λ item, NewInvoiceItem
              (InvoiceItemSchema.item_name item)
              (InvoiceItemSchema.quantity item)
              (InvoiceItemSchema.price item)
              (InvoiceItemSchema.amount item)
              db_invoice) <$> InvoiceHeaderSchema.items invoice) ++
  ((λ bill, NewInvoiceBillSundry
              (InvoiceBillSundrySchema.bill_sundry_name bill)
              (InvoiceBillSundrySchema.amount bill)
              db_invoice) <$> InvoiceHeaderSchema.billsundries invoice).

(** The six attribute assignments of lines 147-152, as the UPDATE of the
    row with the object's primary key. *)
Definition assign_header (invoice : InvoiceHeaderSchema.t) (h : InvoiceHeader.t)
  : InvoiceHeader.t :=
  InvoiceHeader.mk (InvoiceHeader.id h)
    (InvoiceHeaderSchema.date invoice)
    (InvoiceHeader.invoice_number h)
    (InvoiceHeaderSchema.customer_name invoice)
    (InvoiceHeaderSchema.billing_address invoice)
    (InvoiceHeaderSchema.shipping_address invoice)
    (Some (InvoiceHeaderSchema.gstin invoice))
    (InvoiceHeaderSchema.total_amount invoice).

Definition update_header (db_invoice : InvoiceHeader.t)
    (invoice : InvoiceHeaderSchema.t) : Handler InvoiceHeader.t :=
  d ← get_view;
  if PrimFloat.is_nan (InvoiceHeaderSchema.total_amount invoice)
  then raise (IntegrityError "invoice_headers.total_amount")
  else
    put_view {| invoice_headers :=
                  (λ h, if bool_decide (InvoiceHeader.id h = InvoiceHeader.id db_invoice)
                        then assign_header invoice h else h) <$> invoice_headers d;
                invoice_items := invoice_items d;
                invoice_billsundry := invoice_billsundry d |} ;;
    mret (assign_header invoice db_invoice).

(** [db.query(InvoiceItem).filter(InvoiceItem.invoice_id == invoice_id).delete()]. *)
Definition delete_items_where (invoice_id : string) : Handler unit :=
  d ← get_view;
  put_view {| invoice_headers := invoice_headers d;
              invoice_items :=
                filter (λ r, InvoiceItem.invoice_id r ≠ Some invoice_id)
                  (invoice_items d);
              invoice_billsundry := invoice_billsundry d |}.

Definition delete_billsundries_where (invoice_id : string) : Handler unit :=
  d ← get_view;
  put_view {| invoice_headers := invoice_headers d;
              invoice_items := invoice_items d;
              invoice_billsundry :=
                filter (λ r, InvoiceBillSundry.invoice_id r ≠ Some invoice_id)
                  (invoice_billsundry d) |}.

(** [db.delete(invoice)] with [cascade="all, delete-orphan"] on both
    relationships: the loaded lines go with the header row. *)
Definition delete_header (invoice : InvoiceHeader.t) : Handler unit :=
  delete_items_where (InvoiceHeader.id invoice) ;;
  delete_billsundries_where (InvoiceHeader.id invoice) ;;
  d ← get_view;
  put_view {| invoice_headers :=
                filter (λ h, InvoiceHeader.id h ≠ InvoiceHeader.id invoice)
                  (invoice_headers d);
              invoice_items := invoice_items d;
              invoice_billsundry := invoice_billsundry d |}.

(** ** Request handlers (lines 94-186) *)

Definition not_found {A} : Handler A :=
  raise (HTTPException 404 "Invoice not found").

(** Lines 180-186. *)
Definition delete_invoice (invoice_id : string) : Handler string :=
  invoice ← query_first_header invoice_id;
  match invoice with
  | None => not_found
  | Some invoice =>
      delete_header invoice ;;
      commit ;;
      mret "Invoice deleted successfully"
  end.

(** ** Routes: body validation, handler, response model *)

Inductive Response :=
| InvoiceResponse (body : InvoiceHeaderSchema.t)
| InvoiceListResponse (body : list InvoiceHeaderSchema.t)
| MessageResponse (message : string)
| RequestValidationError (detail : list ErrorDetail)
| HTTPError (status_code : Z) (detail : string)
| InternalServerError.

Definition status (r : Response) : Z :=
  match r with
  | InvoiceResponse _ | InvoiceListResponse _ | MessageResponse _ => 200
  | RequestValidationError _ => 422
  | HTTPError c _ => c
  | InternalServerError => 500
  end.

Definition respond_message (_ : Database) (m : string) : Response :=
  MessageResponse m.

(** The errors of a request body, as the response reports them: each under
    [body]. *)
Definition in_body (es : list ErrorDetail) : list ErrorDetail :=
  under (Key "body") <$> es.

(** What outlives a request: the stored tables and the position in the
    source of identifiers. *)
Record World := {
  database : Database;
  entropy : nat → string;
  drawn : nat
}.

(** [SessionLocal()] and [db.close()]. *)
Definition open_session (w : World) : Session :=
  {| committed := database w; view := database w;
     uuid_source := entropy w; uuid_calls := drawn w |}.

Definition close_session (s : Session) : World :=
  {| database := committed s; entropy := uuid_source s;
     drawn := uuid_calls s |}.

(** [Depends(get_db)]: open a session, run the handler, shape the response
    with the session still open, close the session. An [HTTPException] is
    answered with its status; any other exception is a server error. *)
Definition serve {A} (h : Handler A) (respond : Database → A → Response)
    (w : World) : Response * World :=
  let '(r, s) := h (open_session w) in
  (match r with
   | inr a => respond (view s) a
   | inl (HTTPException c d) => HTTPError c d
   | inl _ => InternalServerError
   end,
   close_session s).

(** [DELETE /invoices/{invoice_id}]. *)
Definition DELETE_invoice (invoice_id : string) (w : World) : Response * World :=
  serve (delete_invoice invoice_id) respond_message w.

(** ** Vocabulary of the statements *)

Definition missing (name : string) : ErrorDetail :=
  {| loc := [Key name]; err := Missing |}.

(** The rows the flush inserts for the lines of header [hid], the [k]-th
    draw of the source being the first identifier. *)
Fixpoint item_rows (src : nat → string) (k : nat) (hid : string)
    (items : list InvoiceItemSchema.t) : list InvoiceItem.t :=
  match items with
  | [] => []
  | item :: items' =>
      InvoiceItem.mk (src k)
        (InvoiceItemSchema.item_name item) (InvoiceItemSchema.quantity item)
        (InvoiceItemSchema.price item) (InvoiceItemSchema.amount item)
        (Some hid)
      :: item_rows src (S k) hid items'
  end.

Fixpoint billsundry_rows (src : nat → string) (k : nat) (hid : string)
    (bills : list InvoiceBillSundrySchema.t) : list InvoiceBillSundry.t :=
  match bills with
  | [] => []
  | bill :: bills' =>
      InvoiceBillSundry.mk (src k)
        (InvoiceBillSundrySchema.bill_sundry_name bill)
        (InvoiceBillSundrySchema.amount bill) (Some hid)
      :: billsundry_rows src (S k) hid bills'
  end.

(** The header row [create_invoice] inserts under identifier [id]. *)
Definition header_row (id : string) (invoice : InvoiceHeaderSchema.t)
  : InvoiceHeader.t :=
  InvoiceHeader.mk id (InvoiceHeaderSchema.date invoice) None
    (InvoiceHeaderSchema.customer_name invoice)
    (InvoiceHeaderSchema.billing_address invoice)
    (InvoiceHeaderSchema.shipping_address invoice)
    (Some (InvoiceHeaderSchema.gstin invoice))
    (InvoiceHeaderSchema.total_amount invoice).

(** [n] draws from position [k] are new primary keys for a table whose keys
    are [existing]: pairwise distinct and none of them taken. *)
Definition pk_fresh (src : nat → string) (k n : nat) (existing : list string)
  : Prop :=
  NoDup (src <$> seq k n) ∧ Forall (λ x, x ∉ existing) (src <$> seq k n).

(** The lines of an invoice hold numbers only. *)
Definition item_numbers (item : InvoiceItemSchema.t) : Prop :=
  PrimFloat.is_nan (InvoiceItemSchema.quantity item)
  || PrimFloat.is_nan (InvoiceItemSchema.price item)
  || PrimFloat.is_nan (InvoiceItemSchema.amount item) = false.

Definition billsundry_numbers (bill : InvoiceBillSundrySchema.t) : Prop :=
  PrimFloat.is_nan (InvoiceBillSundrySchema.amount bill) = false.

Definition line_numbers (invoice : InvoiceHeaderSchema.t) : Prop :=
  Forall billsundry_numbers (InvoiceHeaderSchema.billsundries invoice) ∧
  Forall item_numbers (InvoiceHeaderSchema.items invoice).

(** The rows of [invoice] can be inserted in [w]: no NaN, and no collision
    of the identifiers drawn, the header's first, then one for each bill
    sundry, then one for each item. *)
Definition create_fresh (w : World) (invoice : InvoiceHeaderSchema.t) : Prop :=
  let d := database w in
  let n := length (InvoiceHeaderSchema.items invoice) in
  let m := length (InvoiceHeaderSchema.billsundries invoice) in
  PrimFloat.is_nan (InvoiceHeaderSchema.total_amount invoice) = false ∧
  pk_fresh (entropy w) (drawn w) 1 (InvoiceHeader.id <$> invoice_headers d) ∧
  line_numbers invoice ∧
  pk_fresh (entropy w) (S (drawn w)) m
    (InvoiceBillSundry.id <$> invoice_billsundry d) ∧
  pk_fresh (entropy w) (S (drawn w) + m) n (InvoiceItem.id <$> invoice_items d).

(** The tables once the lines of [invoice_id] are deleted. *)
Definition other_items (invoice_id : string) (d : Database) : list InvoiceItem.t :=
  filter (λ r, InvoiceItem.invoice_id r ≠ Some invoice_id) (invoice_items d).

Definition other_billsundries (invoice_id : string) (d : Database)
  : list InvoiceBillSundry.t :=
  filter (λ r, InvoiceBillSundry.invoice_id r ≠ Some invoice_id)
    (invoice_billsundry d).

(** The lines of [invoice] can replace those of [invoice_id] in [w]: one
    draw for each bill sundry, then one for each item, tested against the
    lines that stay. *)
Definition update_fresh (w : World) (invoice_id : string)
    (invoice : InvoiceHeaderSchema.t) : Prop :=
  let d := database w in
  let n := length (InvoiceHeaderSchema.items invoice) in
  let m := length (InvoiceHeaderSchema.billsundries invoice) in
  PrimFloat.is_nan (InvoiceHeaderSchema.total_amount invoice) = false ∧
  line_numbers invoice ∧
  pk_fresh (entropy w) (drawn w) m
    (InvoiceBillSundry.id <$> other_billsundries invoice_id d) ∧
  pk_fresh (entropy w) (drawn w + m) n
    (InvoiceItem.id <$> other_items invoice_id d).

(** Every line refers to a stored header. *)
Definition consistent (d : Database) : Prop :=
  Forall (λ r, ∃ i, InvoiceItem.invoice_id r = Some i ∧
                    i ∈ InvoiceHeader.id <$> invoice_headers d)
    (invoice_items d) ∧
  Forall (λ r, ∃ i, InvoiceBillSundry.invoice_id r = Some i ∧
                    i ∈ InvoiceHeader.id <$> invoice_headers d)
    (invoice_billsundry d).

(** No two rows of a table have the same primary key. *)
Definition keys_unique (d : Database) : Prop :=
  NoDup (InvoiceHeader.id <$> invoice_headers d) ∧
  NoDup (InvoiceItem.id <$> invoice_items d) ∧
  NoDup (InvoiceBillSundry.id <$> invoice_billsundry d).

(** What the handlers keep true of the tables: lines refer to stored
    headers, keys are unique, and no header has a sequence number. *)
Definition store_sound (d : Database) : Prop :=
  consistent d ∧ keys_unique d ∧
  Forall (λ h, InvoiceHeader.invoice_number h = None) (invoice_headers d).

(** The tables after a successful [create_invoice]. *)
Definition created (w : World) (invoice : InvoiceHeaderSchema.t) : World :=
  let d := database w in
  let hid := entropy w (drawn w) in
  let n := length (InvoiceHeaderSchema.items invoice) in
  let m := length (InvoiceHeaderSchema.billsundries invoice) in
  {| database :=
       {| invoice_headers := invoice_headers d ++ [header_row hid invoice];
          invoice_items := invoice_items d ++
            item_rows (entropy w) (S (drawn w) + m) hid
              (InvoiceHeaderSchema.items invoice);
          invoice_billsundry := invoice_billsundry d ++
            billsundry_rows (entropy w) (S (drawn w)) hid
              (InvoiceHeaderSchema.billsundries invoice) |};
     entropy := entropy w;
     drawn := S (drawn w) + m + n |}.

(** The tables after a successful [update_invoice]. *)
Definition updated (w : World) (invoice_id : string)
    (invoice : InvoiceHeaderSchema.t) : World :=
  let d := database w in
  let n := length (InvoiceHeaderSchema.items invoice) in
  let m := length (InvoiceHeaderSchema.billsundries invoice) in
  {| database :=
       {| invoice_headers :=
            (λ h, if bool_decide (InvoiceHeader.id h = invoice_id)
                  then assign_header invoice h else h) <$> invoice_headers d;
          invoice_items := other_items invoice_id d ++
            item_rows (entropy w) (drawn w + m) invoice_id
              (InvoiceHeaderSchema.items invoice);
          invoice_billsundry := other_billsundries invoice_id d ++
            billsundry_rows (entropy w) (drawn w) invoice_id
              (InvoiceHeaderSchema.billsundries invoice) |};
     entropy := entropy w;
     drawn := drawn w + m + n |}.

(** The tables after a successful [delete_invoice]. *)
Definition deleted (w : World) (invoice_id : string) : World :=
  let d := database w in
  {| database :=
       {| invoice_headers :=
            filter (λ h, InvoiceHeader.id h ≠ invoice_id) (invoice_headers d);
          invoice_items := other_items invoice_id d;
          invoice_billsundry := other_billsundries invoice_id d |};
     entropy := entropy w;
     drawn := drawn w |}.

(** The conditions on identifiers and numbers are decidable. *)
#[global] Instance pk_fresh_dec src k n existing :
  Decision (pk_fresh src k n existing).
Proof. unfold pk_fresh. apply _. Defined.

#[global] Instance line_numbers_dec invoice : Decision (line_numbers invoice).
Proof. unfold line_numbers, billsundry_numbers, item_numbers. apply _. Defined.

#[global] Instance create_fresh_dec w invoice :
  Decision (create_fresh w invoice).
Proof. unfold create_fresh. apply _. Defined.

#[global] Instance update_fresh_dec w invoice_id invoice :
  Decision (update_fresh w invoice_id invoice).
Proof. unfold update_fresh. apply _. Defined.

(** A field that has a value of its type. *)
Definition given {A} (x : input A) : bool :=
  match x with Given _ => true | _ => false end.

(** A validator function runs on a body: an item has an [amount], or the
    body has a [total_amount]. *)
Definition calls_validate_amount (b : InvoiceHeaderSchema.body) : bool :=
  match InvoiceHeaderSchema.items' b with
  | Given its => existsb (λ item, given (InvoiceItemSchema.amount' item)) its
  | _ => false
  end.

Definition calls_validator (b : InvoiceHeaderSchema.body) : bool :=
  calls_validate_amount b || given (InvoiceHeaderSchema.total_amount' b).

(** The error a field reports for what came in, if any. *)
Definition reported {A} (x : input A) : option error_type :=
  match x with
  | Absent => Some Missing
  | Unfit => Some WrongType
  | Given _ => None
  end.

Definition item_report (b : InvoiceItemSchema.body)
  : list (string * option error_type) :=
  [("item_name", reported (InvoiceItemSchema.item_name' b));
   ("quantity", reported (InvoiceItemSchema.quantity' b));
   ("price", reported (InvoiceItemSchema.price' b));
   ("amount", reported (InvoiceItemSchema.amount' b))].

Definition billsundry_report (b : InvoiceBillSundrySchema.body)
  : list (string * option error_type) :=
  [("bill_sundry_name", reported (InvoiceBillSundrySchema.bill_sundry_name' b));
   ("amount", reported (InvoiceBillSundrySchema.amount' b))].

Definition header_report (b : InvoiceHeaderSchema.body)
  : list (string * option error_type) :=
  [("date", reported (InvoiceHeaderSchema.date' b));
   ("customer_name", reported (InvoiceHeaderSchema.customer_name' b));
   ("billing_address", reported (InvoiceHeaderSchema.billing_address' b));
   ("shipping_address", reported (InvoiceHeaderSchema.shipping_address' b));
   ("gstin", reported (InvoiceHeaderSchema.gstin' b));
   ("items", reported (InvoiceHeaderSchema.items' b));
   ("billsundries", reported (InvoiceHeaderSchema.billsundries' b));
   ("total_amount", reported (InvoiceHeaderSchema.total_amount' b))].

(** The exceptions of [in] and of [.get] on a [ValidationInfo]. *)
Definition not_iterable : PyError :=
  TypeError "argument of type 'ValidationInfo' is not iterable".

Definition no_get : PyError :=
  AttributeError "'ValidationInfo' object has no attribute 'get'".

(** ** Sample data *)

(** A source of pairwise distinct identifiers. *)
Fixpoint tally (n : nat) : string :=
  match n with
  | O => ""
  | S n' => "I" +:+ tally n'
  end.

Definition sample_uuid (n : nat) : string := "u" +:+ tally n.

(** An empty store. *)
Definition fresh_world : World :=
  {| database := create_all; entropy := sample_uuid; drawn := 0 |}.

(** The invoice of the spec's example, with the address and registration
    fields the schema also requires. *)
Definition item_body (name : string) (quantity price amount : float)
  : InvoiceItemSchema.body :=
  InvoiceItemSchema.mk_body (Given name) (Given quantity) (Given price)
    (Given amount).

Definition freight_body : InvoiceBillSundrySchema.body :=
  InvoiceBillSundrySchema.mk_body (Given "Freight") (Given 2%float).

Definition invoice_body (gstin : input string)
    (items : list InvoiceItemSchema.body)
    (bills : list InvoiceBillSundrySchema.body) (total : input float)
  : InvoiceHeaderSchema.body :=
  InvoiceHeaderSchema.mk_body (Given "2024-01-01") (Given "Acme")
    (Given "1 Main St") (Given "2 Dock Rd") gstin (Given items) (Given bills)
    total.

Definition acme_body (gstin : input string) (total : float)
  : InvoiceHeaderSchema.body :=
  invoice_body gstin [item_body "Widget" 2 5 10] [freight_body] (Given total).

Definition acme : InvoiceHeaderSchema.t :=
  InvoiceHeaderSchema.mk "2024-01-01" "Acme" "1 Main St" "2 Dock Rd" "GSTIN-1"
    [InvoiceItemSchema.mk "Widget" 2 5 10]
    [InvoiceBillSundrySchema.mk "Freight" 2] 12.

(** The same invoice with the item's amount raised to 11. *)
Definition overcharged_body (total : float) : InvoiceHeaderSchema.body :=
  invoice_body (Given "GSTIN-1") [item_body "Widget" 2 5 11] [freight_body]
    (Given total).

(** A body on which no validator function runs: an item without [amount],
    a bill sundry, no [gstin] and no [total_amount]. *)
Definition draft_body : InvoiceHeaderSchema.body :=
  invoice_body Absent
    [InvoiceItemSchema.mk_body (Given "Widget") (Given 2%float) Unfit Absent]
    [freight_body] Absent.

(** An item without [quantity]. *)
Definition unquantified_body : InvoiceItemSchema.body :=
  InvoiceItemSchema.mk_body (Given "Widget") Absent (Given 5%float)
    (Given 11%float).

(** An invoice of three items and no bill sundry. *)
Definition gadgets : InvoiceHeaderSchema.t :=
  InvoiceHeaderSchema.mk "2024-01-01" "Acme" "1 Main St" "2 Dock Rd" "GSTIN-1"
    [InvoiceItemSchema.mk "Widget" 2 5 10; InvoiceItemSchema.mk "Bolt" 3 1 3;
     InvoiceItemSchema.mk "Nut" 4 0.5 2]
    [] 15.

(** The stores that [create_invoice], called with each of the two on an
    empty store, leaves. *)
Definition acme_world : World := created fresh_world acme.

Definition gadgets_world : World := created fresh_world gadgets.

(** The store after the two in a row. *)
Definition both_world : World := created acme_world gadgets.

(** A reading of the [Numeric] columns for the examples: the float as it
    was written. *)
Definition as_written (x : float) : float := x.

(** ** Reads, the handlers that return an invoice, and their routes

    [Numeric_result] is what a read returns for a [Numeric] column written
    as a given float; [Decimal_float] is the float that the schema makes of
    a [Decimal]. *)

Section Numeric.
Variable Decimal : Type.
Variable Numeric_result : float → Decimal.
Variable Decimal_float : Decimal → float.

(** The object the session loads from a row of [invoice_headers]. *)
Definition load (row : InvoiceHeader.t) : InvoiceHeaderObject.t Decimal :=
  InvoiceHeaderObject.mk
    (InvoiceHeader.id row) (InvoiceHeader.date row)
    (InvoiceHeader.invoice_number row) (InvoiceHeader.customer_name row)
    (InvoiceHeader.billing_address row) (InvoiceHeader.shipping_address row)
    (InvoiceHeader.gstin row)
    (Numeric_result (InvoiceHeader.total_amount row)).

(** [db.refresh(obj)]: the row is read again by its primary key. *)
Definition refresh (obj : InvoiceHeader.t)
  : Handler (InvoiceHeaderObject.t Decimal) :=
  r ← query_first_header (InvoiceHeader.id obj);
  match r with
  | Some row => mret (load row)
  | None => raise InvalidRequestError
  end.

(** Lines 95-127. [db.commit()] is the flush of the lines, then the
    commit. *)
Definition create_invoice (invoice : InvoiceHeaderSchema.t)
  : Handler (InvoiceHeaderObject.t Decimal) :=
  db_invoice ← add_InvoiceHeader
    (InvoiceHeaderSchema.date invoice)
    (InvoiceHeaderSchema.customer_name invoice)
    (InvoiceHeaderSchema.billing_address invoice)
    (InvoiceHeaderSchema.shipping_address invoice)
    (InvoiceHeaderSchema.gstin invoice)
    (InvoiceHeaderSchema.total_amount invoice);
  let pending := add_lines invoice db_invoice in
  flush pending ;;
  commit ;;
  refresh db_invoice.

(** Lines 130-134. *)
Definition get_invoice (invoice_id : string)
  : Handler (InvoiceHeaderObject.t Decimal) :=
  invoice ← query_first_header invoice_id;
  match invoice with
  | None => not_found
  | Some invoice => mret (load invoice)
  end.

(** Lines 137-139. *)
Definition list_invoices : Handler (list (InvoiceHeaderObject.t Decimal)) :=
  d ← get_view; mret (load <$> invoice_headers d).

(** Lines 142-177. The assignments of lines 147-152 are written by the
    flush of [db.commit()], before the new lines; they touch no table the
    two bulk deletes touch. *)
Definition update_invoice (invoice_id : string) (invoice : InvoiceHeaderSchema.t)
  : Handler (InvoiceHeaderObject.t Decimal) :=
  db_invoice ← query_first_header invoice_id;
  match db_invoice with
  | None => not_found
  | Some db_invoice =>
      db_invoice ← update_header db_invoice invoice;
      delete_items_where invoice_id ;;
      delete_billsundries_where invoice_id ;;
      let pending := add_lines invoice db_invoice in
      flush pending ;;
      commit ;;
      refresh db_invoice
  end.

(** The attributes [response_model=InvoiceHeaderSchema] reads from a header
    object: its columns and, through the two relationships, its lines. A
    [gstin] that is NULL is no string. *)
Definition item_row_attributes (r : InvoiceItem.t) : InvoiceItemSchema.body :=
  InvoiceItemSchema.mk_body
    (Given (InvoiceItem.item_name r))
    (Given (Decimal_float (Numeric_result (InvoiceItem.quantity r))))
    (Given (Decimal_float (Numeric_result (InvoiceItem.price r))))
    (Given (Decimal_float (Numeric_result (InvoiceItem.amount r)))).

Definition billsundry_row_attributes (r : InvoiceBillSundry.t)
  : InvoiceBillSundrySchema.body :=
  InvoiceBillSundrySchema.mk_body
    (Given (InvoiceBillSundry.bill_sundry_name r))
    (Given (Decimal_float (Numeric_result (InvoiceBillSundry.amount r)))).

Definition header_object_attributes (d : Database)
    (h : InvoiceHeaderObject.t Decimal) : InvoiceHeaderSchema.body :=
  InvoiceHeaderSchema.mk_body
    (Given (InvoiceHeaderObject.date h))
    (Given (InvoiceHeaderObject.customer_name h))
    (Given (InvoiceHeaderObject.billing_address h))
    (Given (InvoiceHeaderObject.shipping_address h))
    (match InvoiceHeaderObject.gstin h with
     | Some g => Given g
     | None => Unfit
     end)
    (Given (item_row_attributes <$> items_of (InvoiceHeaderObject.id h) d))
    (Given (billsundry_row_attributes <$>
              billsundries_of (InvoiceHeaderObject.id h) d))
    (Given (Decimal_float (InvoiceHeaderObject.total_amount h))).

(** [response_model=InvoiceHeaderSchema]: the returned object is validated
    into the schema; an object that does not validate, or a validator that
    raises, is a server error. *)
Definition respond_invoice (d : Database) (h : InvoiceHeaderObject.t Decimal)
  : Response :=
  match InvoiceHeaderSchema_model_validate (header_object_attributes d h) with
  | Instance t => InvoiceResponse t
  | ValidationError _ | Uncaught _ => InternalServerError
  end.

(** [response_model=List[InvoiceHeaderSchema]]. *)
Definition respond_invoices (d : Database)
    (hs : list (InvoiceHeaderObject.t Decimal)) : Response :=
  match validate_list InvoiceHeaderSchema_model_validate 0
          (header_object_attributes d <$> hs) with
  | Instance ts => InvoiceListResponse ts
  | ValidationError _ | Uncaught _ => InternalServerError
  end.

(** [POST /invoices]: the body is validated before the handler is called. *)
Definition POST_invoices (body : InvoiceHeaderSchema.body) (w : World)
  : Response * World :=
  match InvoiceHeaderSchema_model_validate body with
  | Uncaught _ => (InternalServerError, w)
  | ValidationError es => (RequestValidationError (in_body es), w)
  | Instance invoice => serve (create_invoice invoice) respond_invoice w
  end.

(** [GET /invoices/{invoice_id}]. *)
Definition GET_invoice (invoice_id : string) (w : World) : Response * World :=
  serve (get_invoice invoice_id) respond_invoice w.

(** [GET /invoices]. *)
Definition GET_invoices (w : World) : Response * World :=
  serve list_invoices respond_invoices w.

(** [PUT /invoices/{invoice_id}]. *)
Definition PUT_invoice (invoice_id : string) (body : InvoiceHeaderSchema.body)
    (w : World) : Response * World :=
  match InvoiceHeaderSchema_model_validate body with
  | Uncaught _ => (InternalServerError, w)
  | ValidationError es => (RequestValidationError (in_body es), w)
  | Instance invoice => serve (update_invoice invoice_id invoice) respond_invoice w
  end.

(** The five routes as one transition function. *)
Inductive Request :=
| Create (body : InvoiceHeaderSchema.body)
| Get (invoice_id : string)
| List
| Update (invoice_id : string) (body : InvoiceHeaderSchema.body)
| Delete (invoice_id : string).

Definition route (req : Request) (w : World) : Response * World :=
  match req with
  | Create body => POST_invoices body w
  | Get invoice_id => GET_invoice invoice_id w
  | List => GET_invoices w
  | Update invoice_id body => PUT_invoice invoice_id body w
  | Delete invoice_id => DELETE_invoice invoice_id w
  end.

(** The world after a sequence of requests. *)
Definition run (reqs : list Request) (w : World) : World :=
  fold_left (λ w req, snd (route req w)) reqs w.

(** * Properties *)

(** ** The validators *)

Lemma validate_amount_ValidationInfo v data :
  validate_amount v (ValidationInfo data) = inl not_iterable.
Proof. reflexivity. Qed.

Lemma validate_total_amount_ValidationInfo v data :
  validate_total_amount v (ValidationInfo data) = inl no_get.
Proof. reflexivity. Qed.

Lemma validate_amount_dict_skipped v (d : gmap string pyval) :
  d !! "quantity" = None ∨ d !! "price" = None →
  validate_amount v (PyDict d) = inr v.
Proof.
  intros H. unfold validate_amount. cbn.
  destruct H as [H|H]; rewrite H.
  - by rewrite bool_decide_eq_false_2 by (by intros [? ?]).
  - rewrite (bool_decide_eq_false_2 (is_Some None)) by (by intros [? ?]).
    by destruct (bool_decide _).
Qed.

Lemma validate_amount_dict_checked v (d : gmap string pyval) q p :
  d !! "quantity" = Some (PyFloat q) → d !! "price" = Some (PyFloat p) →
  validate_amount v (PyDict d) =
  if py_ne v (q * p)%float
  then inl (ValueError "Amount must be equal to Quantity * Price")
  else inr v.
Proof.
  intros Hq Hp. unfold validate_amount. cbn. rewrite Hq, Hp.
  rewrite !bool_decide_eq_true_2 by eauto. reflexivity.
Qed.

(** ** Validation *)

Section validation.
Implicit Types (st : Validation) (es : list ErrorDetail).

Lemma field_plain {A} name (inj : A → pyval) raw st :
  field name inj raw None (inr st) =
  inr (match raw with
       | Absent => add_errors [{| loc := [Key name]; err := Missing |}] st
       | Unfit => add_errors [{| loc := [Key name]; err := WrongType |}] st
       | Given v => set_value name (inj v) st
       end).
Proof. by destruct raw. Qed.

Lemma field_inr_incl {A} name (inj : A → pyval) raw validator st st' e :
  field name inj raw validator (inr st) = inr st' →
  e ∈ errors st → e ∈ errors st'.
Proof.
  unfold field. cbn. intros H He.
  destruct raw as [| |v].
  - injection H as <-. cbn. apply elem_of_app. by left.
  - injection H as <-. cbn. apply elem_of_app. by left.
  - destruct validator as [f|].
    + destruct (f v _) as [[]|]; simplify_eq; cbn; [|done].
      apply elem_of_app. by left.
    + by injection H as <-.
Qed.

Lemma field_inr_reported {A} name (inj : A → pyval) raw validator st st' e :
  field name inj raw validator (inr st) = inr st' →
  reported raw = Some e →
  {| loc := [Key name]; err := e |} ∈ errors st'.
Proof.
  unfold field. cbn. intros H Hr.
  destruct raw as [| |v]; cbn in Hr; simplify_eq; cbn.
  - apply elem_of_app. right. apply list_elem_of_here.
  - apply elem_of_app. right. apply list_elem_of_here.
Qed.

(** A list of elements that raise nothing raises nothing. *)
Lemma validate_list_caught {B T} (validate : B → Validated T) :
  (∀ b e, validate b ≠ Uncaught e) →
  ∀ l i e, validate_list validate i l ≠ Uncaught e.
Proof.
  intros Hv l. induction l as [|b l IH]; intros i e; [done|].
  cbn. pose proof (Hv b) as Hb. pose proof (IH (S i)) as Hl.
  destruct (validate b) as [t|es|e0]; [| |by destruct (Hb e0)];
    destruct (validate_list validate (S i) l) as [ts|es'|e']; try done;
    by destruct (Hl e').
Qed.

(** The errors of element [i] are among those of the list, under its
    index, unless the validation of the list is left. *)
Lemma validate_list_error {B T} (validate : B → Validated T) l :
  ∀ k i b es e,
    l !! i = Some b → validate b = ValidationError es → e ∈ es →
    match validate_list validate k l with
    | Instance _ => False
    | ValidationError es' => under (Index (k + i)) e ∈ es'
    | Uncaught _ => True
    end.
Proof.
  induction l as [|b' l IH]; intros k i b es e Hl Hb He; [done|].
  cbn. destruct i as [|i].
  - cbn in Hl. injection Hl as ->. rewrite Hb, Nat.add_0_r.
    destruct (validate_list validate (S k) l); [| |done].
    + apply list_elem_of_fmap. by exists e.
    + apply elem_of_app. left. apply list_elem_of_fmap. by exists e.
  - cbn in Hl. specialize (IH (S k) i b es e Hl Hb He).
    replace (k + S i) with (S k + i) by lia.
    destruct (validate_list validate (S k) l) as [ts|es'|e'];
      destruct (validate b'); try done.
    apply elem_of_app. by right.
Qed.

Lemma list_field_inr_incl {B T} name (inj : list T → pyval)
    (validate : B → Validated T) raw st st' e :
  list_field name inj validate raw (inr st) = inr st' →
  e ∈ errors st → e ∈ errors st'.
Proof.
  unfold list_field. cbn. intros H He.
  destruct raw as [| |l].
  - injection H as <-. cbn. apply elem_of_app. by left.
  - injection H as <-. cbn. apply elem_of_app. by left.
  - destruct (validate_list validate 0 l); simplify_eq; cbn; [done|].
    apply elem_of_app. by left.
Qed.

Lemma list_field_inr_reported {B T} name (inj : list T → pyval)
    (validate : B → Validated T) raw st st' e :
  list_field name inj validate raw (inr st) = inr st' →
  reported raw = Some e →
  {| loc := [Key name]; err := e |} ∈ errors st'.
Proof.
  unfold list_field. cbn. intros H Hr.
  destruct raw as [| |v]; cbn in Hr; simplify_eq; cbn.
  - apply elem_of_app. right. apply list_elem_of_here.
  - apply elem_of_app. right. apply list_elem_of_here.
Qed.

Lemma list_field_inr_line {B T} name (inj : list T → pyval)
    (validate : B → Validated T) l st st' i b es e :
  list_field name inj validate (Given l) (inr st) = inr st' →
  l !! i = Some b → validate b = ValidationError es → e ∈ es →
  under (Key name) (under (Index i) e) ∈ errors st'.
Proof.
  unfold list_field. cbn. intros H Hl Hb He.
  pose proof (validate_list_error validate l 0 i b es e Hl Hb He) as Hin.
  destruct (validate_list validate 0 l) as [ts|es'|e']; simplify_eq; [done|].
  cbn. apply elem_of_app. right. apply list_elem_of_fmap. eauto.
Qed.

End validation.

(** ** The three schemas *)

Section schemas.
Implicit Types (st : Validation) (es : list ErrorDetail).

Lemma field_plain_inr {A} name (inj : A → pyval) raw st :
  ∃ st', field name inj raw None (inr st) = inr st'.
Proof. rewrite field_plain. eauto. Qed.

Lemma field_ungiven_inr {A} name (inj : A → pyval) raw validator st :
  given raw = false → ∃ st', field name inj raw validator (inr st) = inr st'.
Proof. destruct raw; [cbn; eauto..|done]. Qed.

Lemma field_inr_inv {A} name (inj : A → pyval) raw validator x st' :
  field name inj raw validator x = inr st' → ∃ st, x = inr st.
Proof. destruct x as [e|st]; [done|eauto]. Qed.

Lemma list_field_inr_inv {B T} name (inj : list T → pyval)
    (validate : B → Validated T) raw x st' :
  list_field name inj validate raw x = inr st' → ∃ st, x = inr st.
Proof. destruct x as [e|st]; [done|eauto]. Qed.

Lemma existsb_lookup {A} (f : A → bool) l i x :
  l !! i = Some x → f x = true → existsb f l = true.
Proof.
  revert i. induction l as [|y l IH]; intros i Hl Hx; [done|].
  destruct i as [|i]; cbn in *.
  - injection Hl as ->. by rewrite Hx.
  - rewrite (IH i Hl Hx). by rewrite orb_true_r.
Qed.

(** *** Items *)

Lemma item_siblings_inr b : ∃ st, InvoiceItemSchema_siblings b = inr st.
Proof.
  unfold InvoiceItemSchema_siblings, begin_validation.
  rewrite !field_plain. eauto.
Qed.

(** An item that has an [amount] has [validate_amount] called, which
    raises at line 59. *)
Lemma item_validate_given b a :
  InvoiceItemSchema.amount' b = Given a →
  InvoiceItemSchema_model_validate b = Uncaught not_iterable.
Proof.
  intros Ha. unfold InvoiceItemSchema_model_validate.
  destruct (item_siblings_inr b) as [st ->]. by rewrite Ha.
Qed.

(** An item without one is refused, each field with what it reports. *)
Lemma item_validate_ungiven b :
  given (InvoiceItemSchema.amount' b) = false →
  ∃ es,
    InvoiceItemSchema_model_validate b = ValidationError es ∧
    ∀ name e, (name, Some e) ∈ item_report b →
              {| loc := [Key name]; err := e |} ∈ es.
Proof.
  intros Ha. unfold InvoiceItemSchema_model_validate, InvoiceItemSchema_siblings,
    begin_validation.
  destruct (field_plain_inr "item_name" PyStr (InvoiceItemSchema.item_name' b)
              {| values := ∅; errors := [] |}) as [st1 H1]. rewrite H1.
  destruct (field_plain_inr "quantity" PyFloat (InvoiceItemSchema.quantity' b)
              st1) as [st2 H2]. rewrite H2.
  destruct (field_plain_inr "price" PyFloat (InvoiceItemSchema.price' b)
              st2) as [st3 H3]. rewrite H3.
  destruct (field_ungiven_inr "amount" PyFloat (InvoiceItemSchema.amount' b)
              (Some validate_amount) st3 Ha) as [st4 H4]. rewrite H4.
  assert (∀ name e, (name, Some e) ∈ item_report b →
                    {| loc := [Key name]; err := e |} ∈ errors st4) as Hin.
  { intros name e Hr. unfold item_report in Hr.
    repeat (apply elem_of_cons in Hr as [Hr|Hr]; [simplify_eq|]).
    - eapply field_inr_incl; [exact H4|]. eapply field_inr_incl; [exact H3|].
      eapply field_inr_incl; [exact H2|]. by eapply field_inr_reported.
    - eapply field_inr_incl; [exact H4|]. eapply field_inr_incl; [exact H3|].
      by eapply field_inr_reported.
    - eapply field_inr_incl; [exact H4|]. by eapply field_inr_reported.
    - by eapply field_inr_reported.
    - by apply elem_of_nil in Hr. }
  destruct (errors st4) as [|e0 es0] eqn:E.
  - destruct (InvoiceItemSchema.amount' b) eqn:Eb; [| |done].
    + specialize (Hin "amount" Missing). unfold item_report in Hin.
      rewrite Eb in Hin. cbn in Hin.
      exfalso. eapply elem_of_nil. apply Hin. repeat constructor.
    + specialize (Hin "amount" WrongType). unfold item_report in Hin.
      rewrite Eb in Hin. cbn in Hin.
      exfalso. eapply elem_of_nil. apply Hin. repeat constructor.
  - exists (e0 :: es0). split; [reflexivity|exact Hin].
Qed.

Lemma items_validate_cases l i :
  if existsb (λ item, given (InvoiceItemSchema.amount' item)) l
  then validate_list InvoiceItemSchema_model_validate i l
       = Uncaught not_iterable
  else ∀ e, validate_list InvoiceItemSchema_model_validate i l ≠ Uncaught e.
Proof.
  revert i. induction l as [|b l IH]; intros i; [done|].
  cbn. specialize (IH (S i)).
  destruct (InvoiceItemSchema.amount' b) as [| |a] eqn:Ea;
    [| |by rewrite (item_validate_given b a Ea)].
  - destruct (item_validate_ungiven b) as (es & -> & _); [by rewrite Ea|].
    cbn. destruct (existsb _ l); [by rewrite IH|].
    intros e. specialize (IH e).
    by destruct (validate_list _ _ l).
  - destruct (item_validate_ungiven b) as (es & -> & _); [by rewrite Ea|].
    cbn. destruct (existsb _ l); [by rewrite IH|].
    intros e. specialize (IH e).
    by destruct (validate_list _ _ l).
Qed.

(** *** Bill sundries *)

Lemma bill_validate_cases b :
  ∃ st,
    field "amount" PyFloat (InvoiceBillSundrySchema.amount' b) None
      (field "bill_sundry_name" PyStr
         (InvoiceBillSundrySchema.bill_sundry_name' b) None
         begin_validation) = inr st ∧
    (∀ name e, (name, Some e) ∈ billsundry_report b →
               {| loc := [Key name]; err := e |} ∈ errors st) ∧
    ((∃ t, InvoiceBillSundrySchema_model_validate b = Instance t) ∨
     InvoiceBillSundrySchema_model_validate b = ValidationError (errors st)).
Proof.
  unfold InvoiceBillSundrySchema_model_validate, begin_validation.
  destruct (field_plain_inr "bill_sundry_name" PyStr
              (InvoiceBillSundrySchema.bill_sundry_name' b)
              {| values := ∅; errors := [] |}) as [st1 H1]. rewrite H1.
  destruct (field_plain_inr "amount" PyFloat
              (InvoiceBillSundrySchema.amount' b) st1) as [st2 H2]. rewrite H2.
  exists st2. split; [done|]. split.
  - intros name e Hr. unfold billsundry_report in Hr.
    repeat (apply elem_of_cons in Hr as [Hr|Hr]; [simplify_eq|]).
    + eapply field_inr_incl; [exact H2|]. by eapply field_inr_reported.
    + by eapply field_inr_reported.
    + by apply elem_of_nil in Hr.
  - repeat case_match; eauto.
Qed.

Lemma bill_validate_caught b e :
  InvoiceBillSundrySchema_model_validate b ≠ Uncaught e.
Proof.
  destruct (bill_validate_cases b) as (st & _ & _ & [[t H]|H]); by rewrite H.
Qed.

(** *** Headers *)

(** The fields before [total_amount]: an item that has an [amount] ends
    the validation. *)
Lemma header_siblings_uncaught body :
  calls_validate_amount body = true →
  InvoiceHeaderSchema_siblings body = inl not_iterable.
Proof.
  unfold calls_validate_amount, InvoiceHeaderSchema_siblings, begin_validation.
  intros Hc. rewrite !field_plain.
  destruct (InvoiceHeaderSchema.items' body) as [| |its]; [done..|].
  pose proof (items_validate_cases its 0) as Hits. rewrite Hc in Hits.
  unfold list_field at 2. cbn. by rewrite Hits.
Qed.

Lemma header_siblings_inr body :
  calls_validate_amount body = false →
  ∃ st, InvoiceHeaderSchema_siblings body = inr st.
Proof.
  unfold calls_validate_amount, InvoiceHeaderSchema_siblings, begin_validation.
  intros Hc. rewrite !field_plain.
  match goal with
  | |- context [list_field "items" _ _ _ (inr ?s)] => generalize s
  end.
  intros st5.
  assert (∃ st6, list_field "items" PyItems InvoiceItemSchema_model_validate
                   (InvoiceHeaderSchema.items' body) (inr st5) = inr st6)
    as [st6 ->].
  { destruct (InvoiceHeaderSchema.items' body) as [| |its]; [cbn; eauto..|].
    pose proof (items_validate_cases its 0) as Hits. rewrite Hc in Hits.
    unfold list_field. cbn.
    destruct (validate_list _ 0 its) as [ts|es|e]; [eauto..|].
    by destruct (Hits e). }
  destruct (InvoiceHeaderSchema.billsundries' body) as [| |bs]; [cbn; eauto..|].
  pose proof (validate_list_caught InvoiceBillSundrySchema_model_validate
                bill_validate_caught bs 0) as Hbs.
  unfold list_field. cbn.
  destruct (validate_list _ 0 bs) as [ts|es|e]; [eauto..|].
  by destruct (Hbs e).
Qed.

(** The states the fields of a header go through. *)
Lemma header_siblings_states body st :
  InvoiceHeaderSchema_siblings body = inr st →
  ∃ st1 st2 st3 st4 st5 st6,
    field "date" PyStr (InvoiceHeaderSchema.date' body) None begin_validation
      = inr st1 ∧
    field "customer_name" PyStr (InvoiceHeaderSchema.customer_name' body) None
      (inr st1) = inr st2 ∧
    field "billing_address" PyStr (InvoiceHeaderSchema.billing_address' body)
      None (inr st2) = inr st3 ∧
    field "shipping_address" PyStr (InvoiceHeaderSchema.shipping_address' body)
      None (inr st3) = inr st4 ∧
    field "gstin" PyStr (InvoiceHeaderSchema.gstin' body) None (inr st4)
      = inr st5 ∧
    list_field "items" PyItems InvoiceItemSchema_model_validate
      (InvoiceHeaderSchema.items' body) (inr st5) = inr st6 ∧
    list_field "billsundries" PyBills InvoiceBillSundrySchema_model_validate
      (InvoiceHeaderSchema.billsundries' body) (inr st6) = inr st.
Proof.
  unfold InvoiceHeaderSchema_siblings. intros H.
  pose proof H as H7. apply list_field_inr_inv in H7 as [st6 H6].
  rewrite H6 in H.
  pose proof H6 as H6'. apply list_field_inr_inv in H6' as [st5 H5].
  rewrite H5 in H6.
  pose proof H5 as H5'. apply field_inr_inv in H5' as [st4 H4].
  rewrite H4 in H5.
  pose proof H4 as H4'. apply field_inr_inv in H4' as [st3 H3].
  rewrite H3 in H4.
  pose proof H3 as H3'. apply field_inr_inv in H3' as [st2 H2].
  rewrite H2 in H3.
  pose proof H2 as H2'. apply field_inr_inv in H2' as [st1 H1].
  rewrite H1 in H2.
  by exists st1, st2, st3, st4, st5, st6.
Qed.

Lemma header_siblings_reported body st name e :
  InvoiceHeaderSchema_siblings body = inr st →
  (name, Some e) ∈ header_report body → name ≠ "total_amount" →
  {| loc := [Key name]; err := e |} ∈ errors st.
Proof.
  intros H Hr Hn.
  apply header_siblings_states in H
    as (st1 & st2 & st3 & st4 & st5 & st6 & H1 & H2 & H3 & H4 & H5 & H6 & H7).
  unfold begin_validation in H1. unfold header_report in Hr.
  repeat (apply elem_of_cons in Hr as [Hr|Hr]; [simplify_eq|]).
  - eapply list_field_inr_incl; [exact H7|].
    eapply list_field_inr_incl; [exact H6|].
    eapply field_inr_incl; [exact H5|]. eapply field_inr_incl; [exact H4|].
    eapply field_inr_incl; [exact H3|]. eapply field_inr_incl; [exact H2|].
    by eapply field_inr_reported.
  - eapply list_field_inr_incl; [exact H7|].
    eapply list_field_inr_incl; [exact H6|].
    eapply field_inr_incl; [exact H5|]. eapply field_inr_incl; [exact H4|].
    eapply field_inr_incl; [exact H3|]. by eapply field_inr_reported.
  - eapply list_field_inr_incl; [exact H7|].
    eapply list_field_inr_incl; [exact H6|].
    eapply field_inr_incl; [exact H5|]. eapply field_inr_incl; [exact H4|].
    by eapply field_inr_reported.
  - eapply list_field_inr_incl; [exact H7|].
    eapply list_field_inr_incl; [exact H6|].
    eapply field_inr_incl; [exact H5|]. by eapply field_inr_reported.
  - eapply list_field_inr_incl; [exact H7|].
    eapply list_field_inr_incl; [exact H6|]. by eapply field_inr_reported.
  - eapply list_field_inr_incl; [exact H7|].
    by eapply list_field_inr_reported.
  - by eapply list_field_inr_reported.
  - by apply elem_of_nil in Hr.
Qed.

Lemma header_siblings_item body st its i b name e :
  InvoiceHeaderSchema_siblings body = inr st →
  InvoiceHeaderSchema.items' body = Given its → its !! i = Some b →
  (name, Some e) ∈ item_report b →
  {| loc := [Key "items"; Index i; Key name]; err := e |} ∈ errors st.
Proof.
  intros H Hits Hi Hr.
  pose proof H as Hst. apply header_siblings_states in Hst
    as (st1 & st2 & st3 & st4 & st5 & st6 & _ & _ & _ & _ & _ & H6 & H7).
  rewrite Hits in H6.
  eapply list_field_inr_incl; [exact H7|].
  destruct (InvoiceItemSchema.amount' b) as [| |a] eqn:Ea.
  - destruct (item_validate_ungiven b) as (es & Hv & Hes); [by rewrite Ea|].
    exact (list_field_inr_line _ _ _ _ _ _ _ _ _ _ H6 Hi Hv (Hes _ _ Hr)).
  - destruct (item_validate_ungiven b) as (es & Hv & Hes); [by rewrite Ea|].
    exact (list_field_inr_line _ _ _ _ _ _ _ _ _ _ H6 Hi Hv (Hes _ _ Hr)).
  - exfalso. unfold list_field in H6. cbn in H6.
    pose proof (items_validate_cases its 0) as Hc.
    assert (existsb (λ item, given (InvoiceItemSchema.amount' item)) its = true)
      as Hex.
    { eapply existsb_lookup; [exact Hi|]. by rewrite Ea. }
    rewrite Hex in Hc. by rewrite Hc in H6.
Qed.

Lemma header_siblings_billsundry body st bs i b name e :
  InvoiceHeaderSchema_siblings body = inr st →
  InvoiceHeaderSchema.billsundries' body = Given bs → bs !! i = Some b →
  (name, Some e) ∈ billsundry_report b →
  {| loc := [Key "billsundries"; Index i; Key name]; err := e |} ∈ errors st.
Proof.
  intros H Hbs Hi Hr.
  pose proof H as Hst. apply header_siblings_states in Hst
    as (st1 & st2 & st3 & st4 & st5 & st6 & _ & _ & _ & _ & _ & _ & H7).
  rewrite Hbs in H7.
  destruct (bill_validate_cases b) as (stb & _ & Hin & [[t Hv]|Hv]).
  - exfalso. unfold billsundry_report in Hr.
    unfold InvoiceBillSundrySchema_model_validate, begin_validation in Hv.
    rewrite !field_plain in Hv.
    destruct (InvoiceBillSundrySchema.bill_sundry_name' b),
      (InvoiceBillSundrySchema.amount' b); cbn in Hv, Hr; try done.
    repeat (apply elem_of_cons in Hr as [Hr|Hr]; [simplify_eq|]).
    by apply elem_of_nil in Hr.
  - exact (list_field_inr_line _ _ _ _ _ _ _ _ _ _ H7 Hi Hv (Hin _ _ Hr)).
Qed.

(** A body on which a validator function runs: the validation is left
    with what the function raises first. *)
Lemma header_validate_uncaught body :
  calls_validator body = true →
  InvoiceHeaderSchema_model_validate body =
  Uncaught (if calls_validate_amount body then not_iterable else no_get).
Proof.
  unfold calls_validator, InvoiceHeaderSchema_model_validate. intros Hc.
  destruct (calls_validate_amount body) eqn:Ha.
  - by rewrite header_siblings_uncaught.
  - destruct (header_siblings_inr body Ha) as [st ->].
    cbn in Hc. by destruct (InvoiceHeaderSchema.total_amount' body).
Qed.

(** A body on which none runs is refused: [total_amount] is among the
    fields reported. *)
Lemma header_validate_refused body :
  calls_validator body = false →
  ∃ st st',
    InvoiceHeaderSchema_siblings body = inr st ∧
    (∀ e, e ∈ errors st → e ∈ errors st') ∧
    (∀ name e, (name, Some e) ∈ header_report body →
               {| loc := [Key name]; err := e |} ∈ errors st') ∧
    InvoiceHeaderSchema_model_validate body = ValidationError (errors st').
Proof.
  unfold calls_validator. intros Hc. apply orb_false_iff in Hc as [Ha Ht].
  destruct (header_siblings_inr body Ha) as [st Hst].
  destruct (field_ungiven_inr "total_amount" PyFloat
              (InvoiceHeaderSchema.total_amount' body)
              (Some validate_total_amount) st Ht) as [st' Hst'].
  exists st, st'. split; [done|]. split.
  { intros e. by eapply field_inr_incl. }
  assert (∀ name e, (name, Some e) ∈ header_report body →
                    {| loc := [Key name]; err := e |} ∈ errors st') as Hin.
  { intros name e Hr. destruct (decide (name = "total_amount")) as [->|Hn].
    - unfold header_report in Hr.
      repeat (apply elem_of_cons in Hr as [Hr|Hr]; [simplify_eq|]).
      + by eapply field_inr_reported.
      + by apply elem_of_nil in Hr.
    - eapply field_inr_incl; [exact Hst'|].
      by eapply header_siblings_reported. }
  split; [exact Hin|].
  unfold InvoiceHeaderSchema_model_validate. rewrite Hst, Hst'.
  destruct (errors st') as [|e0 es0] eqn:E; [|reflexivity].
  exfalso. destruct (InvoiceHeaderSchema.total_amount' body) eqn:Eb; [| |done].
  - specialize (Hin "total_amount" Missing). unfold header_report in Hin.
    rewrite Eb in Hin. cbn in Hin.
    eapply elem_of_nil. apply Hin. repeat constructor.
  - specialize (Hin "total_amount" WrongType). unfold header_report in Hin.
    rewrite Eb in Hin. cbn in Hin.
    eapply elem_of_nil. apply Hin. repeat constructor.
Qed.

(** No body validates. *)
Lemma header_validate_never body t :
  InvoiceHeaderSchema_model_validate body ≠ Instance t.
Proof.
  destruct (calls_validator body) eqn:Hc.
  - by rewrite header_validate_uncaught.
  - destruct (header_validate_refused body Hc) as (st & st' & _ & _ & _ & ->).
    done.
Qed.

End schemas.

(** ** Sessions and statements *)

Lemma bind_run {A B} (m : Handler A) (f : A → Handler B) s :
  mbind f m s =
  match m s with
  | (inr a, s') => f a s'
  | (inl e, s') => (inl e, s')
  end.
Proof. reflexivity. Qed.

Lemma for_each_cons {A} (x : A) xs body s :
  for_each (x :: xs) body s =
  match body x s with
  | (inr _, s') => for_each xs body s'
  | (inl e, s') => (inl e, s')
  end.
Proof. reflexivity. Qed.

Lemma pk_fresh_S src k n existing :
  pk_fresh src k (S n) existing →
  (src k ∉ existing) ∧ pk_fresh src (S k) n (existing ++ [src k]).
Proof.
  unfold pk_fresh. change (seq k (S n)) with (k :: seq (S k) n).
  rewrite fmap_cons. intros [Hnd Hall].
  apply NoDup_cons in Hnd as [Hk Hnd].
  apply Forall_cons in Hall as [Hk' Hall].
  split; [done|]. split; [done|].
  apply Forall_forall. intros x Hx.
  rewrite Forall_forall in Hall. specialize (Hall x Hx).
  rewrite elem_of_app, list_elem_of_singleton. intros [?| ->]; done.
Qed.

Lemma pk_fresh_0 src k existing : pk_fresh src k 0 existing.
Proof. split; constructor. Qed.

Lemma pk_fresh_S_inv src k n existing :
  src k ∉ existing →
  pk_fresh src (S k) n (existing ++ [src k]) →
  pk_fresh src k (S n) existing.
Proof.
  unfold pk_fresh. change (seq k (S n)) with (k :: seq (S k) n).
  rewrite fmap_cons. intros Hk [Hnd Hall]. rewrite Forall_forall in Hall.
  split.
  - apply NoDup_cons. split; [|done]. intros Hin.
    apply (Hall _ Hin). apply elem_of_app. right.
    by apply list_elem_of_singleton.
  - apply Forall_cons. split; [done|]. apply Forall_forall. intros x Hx Hex.
    apply (Hall _ Hx). apply elem_of_app. by left.
Qed.

Lemma pk_fresh_1 src k existing :
  pk_fresh src k 1 existing ↔ src k ∉ existing.
Proof.
  split.
  - intros H. by apply pk_fresh_S in H as [? _].
  - intros Hk. apply pk_fresh_S_inv; [done|]. apply pk_fresh_0.
Qed.

Lemma for_each_app {A} (xs ys : list A) body s :
  for_each (xs ++ ys) body s =
  match for_each xs body s with
  | (inr _, s') => for_each ys body s'
  | (inl e, s') => (inl e, s')
  end.
Proof.
  revert s. induction xs as [|x xs IH]; intros s; [done|].
  cbn [app]. rewrite !for_each_cons.
  destruct (body x s) as [[e|[]] s']; [done|apply IH].
Qed.

Lemma for_each_skip {A B} (f : A → B) xs (body : B → Handler unit) s :
  (∀ x, body (f x) = mret ()) → for_each (f <$> xs) body s = (inr (), s).
Proof.
  intros Hb. induction xs as [|x xs IH]; [done|].
  rewrite fmap_cons, for_each_cons, Hb. exact IH.
Qed.

Lemma for_each_fmap {A B} (f : A → B) xs (body : B → Handler unit) s :
  for_each (f <$> xs) body s = for_each xs (λ x, body (f x)) s.
Proof.
  revert s. induction xs as [|x xs IH]; intros s; [done|].
  rewrite fmap_cons, !for_each_cons.
  destruct (body (f x) s) as [[e|[]] s']; [done|apply IH].
Qed.

(** *** The flush of new lines *)

Lemma flush_InvoiceItem_run n q p a (h : InvoiceHeader.t) s :
  PrimFloat.is_nan q || PrimFloat.is_nan p || PrimFloat.is_nan a = false →
  uuid_source s (uuid_calls s) ∉ InvoiceItem.id <$> invoice_items (view s) →
  flush_InvoiceItem n q p a h s =
  (inr (),
   {| committed := committed s;
      view := {| invoice_headers := invoice_headers (view s);
                 invoice_items := invoice_items (view s) ++
                   [InvoiceItem.mk (uuid_source s (uuid_calls s)) n q p a
                      (Some (InvoiceHeader.id h))];
                 invoice_billsundry := invoice_billsundry (view s) |};
      uuid_source := uuid_source s;
      uuid_calls := S (uuid_calls s) |}).
Proof.
  intros Hn Hk. unfold flush_InvoiceItem, insert_item, uuid4.
  rewrite !bind_run. cbn -[PrimFloat.is_nan]. rewrite Hn.
  by rewrite bool_decide_eq_false_2.
Qed.

Lemma flush_InvoiceItem_fail n q p a (h : InvoiceHeader.t) s :
  ¬ (PrimFloat.is_nan q || PrimFloat.is_nan p || PrimFloat.is_nan a = false ∧
     uuid_source s (uuid_calls s) ∉ InvoiceItem.id <$> invoice_items (view s)) →
  ∃ c s', flush_InvoiceItem n q p a h s = (inl (IntegrityError c), s') ∧
          committed s' = committed s.
Proof.
  intros Hnf. unfold flush_InvoiceItem, insert_item, uuid4.
  rewrite !bind_run. cbn -[PrimFloat.is_nan].
  destruct (PrimFloat.is_nan q || PrimFloat.is_nan p || PrimFloat.is_nan a)
    eqn:Hn; [by eexists _, _|].
  rewrite bool_decide_eq_true_2; [by eexists _, _|].
  destruct (decide (uuid_source s (uuid_calls s)
                      ∈ InvoiceItem.id <$> invoice_items (view s)));
    [done|by destruct Hnf].
Qed.

Lemma flush_InvoiceBillSundry_run n a (h : InvoiceHeader.t) s :
  PrimFloat.is_nan a = false →
  uuid_source s (uuid_calls s)
    ∉ InvoiceBillSundry.id <$> invoice_billsundry (view s) →
  flush_InvoiceBillSundry n a h s =
  (inr (),
   {| committed := committed s;
      view := {| invoice_headers := invoice_headers (view s);
                 invoice_items := invoice_items (view s);
                 invoice_billsundry := invoice_billsundry (view s) ++
                   [InvoiceBillSundry.mk (uuid_source s (uuid_calls s)) n a
                      (Some (InvoiceHeader.id h))] |};
      uuid_source := uuid_source s;
      uuid_calls := S (uuid_calls s) |}).
Proof.
  intros Hn Hk. unfold flush_InvoiceBillSundry, insert_billsundry, uuid4.
  rewrite !bind_run. cbn -[PrimFloat.is_nan]. rewrite Hn.
  by rewrite bool_decide_eq_false_2.
Qed.

Lemma flush_InvoiceBillSundry_fail n a (h : InvoiceHeader.t) s :
  ¬ (PrimFloat.is_nan a = false ∧
     uuid_source s (uuid_calls s)
       ∉ InvoiceBillSundry.id <$> invoice_billsundry (view s)) →
  ∃ c s', flush_InvoiceBillSundry n a h s = (inl (IntegrityError c), s') ∧
          committed s' = committed s.
Proof.
  intros Hnf. unfold flush_InvoiceBillSundry, insert_billsundry, uuid4.
  rewrite !bind_run. cbn -[PrimFloat.is_nan].
  destruct (PrimFloat.is_nan a) eqn:Hn; [by eexists _, _|].
  rewrite bool_decide_eq_true_2; [by eexists _, _|].
  destruct (decide (uuid_source s (uuid_calls s)
                      ∈ InvoiceBillSundry.id <$> invoice_billsundry (view s)));
    [done|by destruct Hnf].
Qed.

Lemma for_each_items_run (h : InvoiceHeader.t) items s :
  Forall item_numbers items →
  pk_fresh (uuid_source s) (uuid_calls s) (length items)
    (InvoiceItem.id <$> invoice_items (view s)) →
  for_each items (λ item,
    flush_InvoiceItem (InvoiceItemSchema.item_name item)
      (InvoiceItemSchema.quantity item) (InvoiceItemSchema.price item)
      (InvoiceItemSchema.amount item) h) s =
  (inr (),
   {| committed := committed s;
      view := {| invoice_headers := invoice_headers (view s);
                 invoice_items := invoice_items (view s) ++
                   item_rows (uuid_source s) (uuid_calls s)
                     (InvoiceHeader.id h) items;
                 invoice_billsundry := invoice_billsundry (view s) |};
      uuid_source := uuid_source s;
      uuid_calls := uuid_calls s + length items |}).
Proof.
  revert s. induction items as [|item items IH]; intros s Hn Hf.
  - destruct s as [c [hs rs bs] src k]. cbn.
    by rewrite app_nil_r, Nat.add_0_r.
  - apply pk_fresh_S in Hf as [Hk Hf]. apply Forall_cons in Hn as [Hn Hns].
    rewrite for_each_cons, flush_InvoiceItem_run by done.
    rewrite IH.
    + cbn. by rewrite <- app_assoc, Nat.add_succ_r.
    + done.
    + cbn. by rewrite fmap_app.
Qed.

Lemma for_each_items_fail (h : InvoiceHeader.t) items s :
  ¬ (Forall item_numbers items ∧
     pk_fresh (uuid_source s) (uuid_calls s) (length items)
       (InvoiceItem.id <$> invoice_items (view s))) →
  ∃ c s', for_each items (λ item,
      flush_InvoiceItem (InvoiceItemSchema.item_name item)
        (InvoiceItemSchema.quantity item) (InvoiceItemSchema.price item)
        (InvoiceItemSchema.amount item) h) s = (inl (IntegrityError c), s') ∧
    committed s' = committed s.
Proof.
  revert s. induction items as [|item items IH]; intros s Hnf.
  - destruct Hnf. split; [constructor|apply pk_fresh_0].
  - rewrite for_each_cons.
    destruct (decide (item_numbers item ∧
                uuid_source s (uuid_calls s)
                  ∉ InvoiceItem.id <$> invoice_items (view s))) as [[Hn Hk]|Hh].
    + rewrite flush_InvoiceItem_run by done.
      match goal with |- context [for_each items _ ?s1] =>
        destruct (IH s1) as (c & s' & -> & Hc) end.
      * cbn. rewrite fmap_app. intros [Hns Hf]. apply Hnf.
        split; [by constructor|by apply pk_fresh_S_inv].
      * by eexists _, _.
    + destruct (flush_InvoiceItem_fail (InvoiceItemSchema.item_name item)
                  (InvoiceItemSchema.quantity item)
                  (InvoiceItemSchema.price item)
                  (InvoiceItemSchema.amount item) h s Hh)
        as (c & s' & -> & Hc).
      by eexists _, _.
Qed.

Lemma for_each_billsundries_run (h : InvoiceHeader.t) bills s :
  Forall billsundry_numbers bills →
  pk_fresh (uuid_source s) (uuid_calls s) (length bills)
    (InvoiceBillSundry.id <$> invoice_billsundry (view s)) →
  for_each bills (λ bill,
    flush_InvoiceBillSundry (InvoiceBillSundrySchema.bill_sundry_name bill)
      (InvoiceBillSundrySchema.amount bill) h) s =
  (inr (),
   {| committed := committed s;
      view := {| invoice_headers := invoice_headers (view s);
                 invoice_items := invoice_items (view s);
                 invoice_billsundry := invoice_billsundry (view s) ++
                   billsundry_rows (uuid_source s) (uuid_calls s)
                     (InvoiceHeader.id h) bills |};
      uuid_source := uuid_source s;
      uuid_calls := uuid_calls s + length bills |}).
Proof.
  revert s. induction bills as [|bill bills IH]; intros s Hn Hf.
  - destruct s as [c [hs rs bs] src k]. cbn.
    by rewrite app_nil_r, Nat.add_0_r.
  - apply pk_fresh_S in Hf as [Hk Hf]. apply Forall_cons in Hn as [Hn Hns].
    rewrite for_each_cons, flush_InvoiceBillSundry_run by done.
    rewrite IH.
    + cbn. by rewrite <- app_assoc, Nat.add_succ_r.
    + done.
    + cbn. by rewrite fmap_app.
Qed.

Lemma for_each_billsundries_fail (h : InvoiceHeader.t) bills s :
  ¬ (Forall billsundry_numbers bills ∧
     pk_fresh (uuid_source s) (uuid_calls s) (length bills)
       (InvoiceBillSundry.id <$> invoice_billsundry (view s))) →
  ∃ c s', for_each bills (λ bill,
      flush_InvoiceBillSundry (InvoiceBillSundrySchema.bill_sundry_name bill)
        (InvoiceBillSundrySchema.amount bill) h) s
      = (inl (IntegrityError c), s') ∧
    committed s' = committed s.
Proof.
  revert s. induction bills as [|bill bills IH]; intros s Hnf.
  - destruct Hnf. split; [constructor|apply pk_fresh_0].
  - rewrite for_each_cons.
    destruct (decide (billsundry_numbers bill ∧
                uuid_source s (uuid_calls s)
                  ∉ InvoiceBillSundry.id <$> invoice_billsundry (view s)))
      as [[Hn Hk]|Hh].
    + rewrite flush_InvoiceBillSundry_run by done.
      match goal with |- context [for_each bills _ ?s1] =>
        destruct (IH s1) as (c & s' & -> & Hc) end.
      * cbn. rewrite fmap_app. intros [Hns Hf]. apply Hnf.
        split; [by constructor|by apply pk_fresh_S_inv].
      * by eexists _, _.
    + destruct (flush_InvoiceBillSundry_fail
                  (InvoiceBillSundrySchema.bill_sundry_name bill)
                  (InvoiceBillSundrySchema.amount bill) h s Hh)
        as (c & s' & -> & Hc).
      by eexists _, _.
Qed.

(** The flush of the lines of an invoice is that of its bill sundries,
    then that of its items. *)
Lemma flush_add_lines invoice (h : InvoiceHeader.t) s :
  flush (add_lines invoice h) s =
  match for_each (InvoiceHeaderSchema.billsundries invoice) (λ bill,
          flush_InvoiceBillSundry
            (InvoiceBillSundrySchema.bill_sundry_name bill)
            (InvoiceBillSundrySchema.amount bill) h) s with
  | (inr _, s') =>
      for_each (InvoiceHeaderSchema.items invoice) (λ item,
        flush_InvoiceItem (InvoiceItemSchema.item_name item)
          (InvoiceItemSchema.quantity item) (InvoiceItemSchema.price item)
          (InvoiceItemSchema.amount item) h) s'
  | (inl e, s') => (inl e, s')
  end.
Proof.
  unfold flush, add_lines. rewrite bind_run.
  rewrite for_each_app, for_each_skip by done. rewrite for_each_fmap.
  cbn beta iota.
  match goal with |- context [for_each (InvoiceHeaderSchema.billsundries _) ?f s] =>
    destruct (for_each (InvoiceHeaderSchema.billsundries invoice) f s)
      as [[e|[]] s'] end; [done|].
  rewrite for_each_app, for_each_fmap. cbn beta iota.
  match goal with |- context [for_each (InvoiceHeaderSchema.items _) ?f s'] =>
    destruct (for_each (InvoiceHeaderSchema.items invoice) f s')
      as [[e|[]] s''] end; [done|].
  by rewrite for_each_skip.
Qed.

Lemma flush_lines_run invoice (h : InvoiceHeader.t) s :
  line_numbers invoice →
  pk_fresh (uuid_source s) (uuid_calls s)
    (length (InvoiceHeaderSchema.billsundries invoice))
    (InvoiceBillSundry.id <$> invoice_billsundry (view s)) →
  pk_fresh (uuid_source s)
    (uuid_calls s + length (InvoiceHeaderSchema.billsundries invoice))
    (length (InvoiceHeaderSchema.items invoice))
    (InvoiceItem.id <$> invoice_items (view s)) →
  flush (add_lines invoice h) s =
  (inr (),
   {| committed := committed s;
      view := {| invoice_headers := invoice_headers (view s);
                 invoice_items := invoice_items (view s) ++
                   item_rows (uuid_source s)
                     (uuid_calls s +
                        length (InvoiceHeaderSchema.billsundries invoice))
                     (InvoiceHeader.id h) (InvoiceHeaderSchema.items invoice);
                 invoice_billsundry := invoice_billsundry (view s) ++
                   billsundry_rows (uuid_source s) (uuid_calls s)
                     (InvoiceHeader.id h)
                     (InvoiceHeaderSchema.billsundries invoice) |};
      uuid_source := uuid_source s;
      uuid_calls := uuid_calls s +
        length (InvoiceHeaderSchema.billsundries invoice) +
        length (InvoiceHeaderSchema.items invoice) |}).
Proof.
  intros [Hnb Hni] Hb Hi. rewrite flush_add_lines.
  rewrite for_each_billsundries_run by done.
  by rewrite for_each_items_run.
Qed.

Lemma flush_lines_fail invoice (h : InvoiceHeader.t) s :
  ¬ (line_numbers invoice ∧
     pk_fresh (uuid_source s) (uuid_calls s)
       (length (InvoiceHeaderSchema.billsundries invoice))
       (InvoiceBillSundry.id <$> invoice_billsundry (view s)) ∧
     pk_fresh (uuid_source s)
       (uuid_calls s + length (InvoiceHeaderSchema.billsundries invoice))
       (length (InvoiceHeaderSchema.items invoice))
       (InvoiceItem.id <$> invoice_items (view s))) →
  ∃ c s', flush (add_lines invoice h) s = (inl (IntegrityError c), s') ∧
          committed s' = committed s.
Proof.
  intros Hnf. rewrite flush_add_lines.
  destruct (decide (Forall billsundry_numbers
                      (InvoiceHeaderSchema.billsundries invoice) ∧
              pk_fresh (uuid_source s) (uuid_calls s)
                (length (InvoiceHeaderSchema.billsundries invoice))
                (InvoiceBillSundry.id <$> invoice_billsundry (view s))))
    as [[Hnb Hb]|Hb].
  - rewrite for_each_billsundries_run by done.
    match goal with |- context [for_each (InvoiceHeaderSchema.items _) _ ?s1] =>
      destruct (for_each_items_fail h (InvoiceHeaderSchema.items invoice) s1)
        as (c & s' & -> & Hc) end.
    + cbn. intros [Hni Hi]. apply Hnf. split; [by split|]. by split.
    + by eexists _, _.
  - destruct (for_each_billsundries_fail h
                (InvoiceHeaderSchema.billsundries invoice) s Hb)
      as (c & s' & -> & Hc).
    by eexists _, _.
Qed.

(** *** Queries *)

Lemma filter_none {A} (P : A → Prop) `{!∀ x, Decision (P x)} (l : list A) :
  Forall (λ x, ¬ P x) l → filter P l = [].
Proof.
  induction 1 as [|x l Hx _ IH]; [done|]. by rewrite filter_cons_False.
Qed.

Lemma close_open_session w : close_session (open_session w) = w.
Proof. by destruct w. Qed.

Lemma first_header_Some i d h :
  first_header i d = Some h → InvoiceHeader.id h = i ∧ h ∈ invoice_headers d.
Proof.
  unfold first_header. intros H. apply head_Some_elem_of in H.
  by apply list_elem_of_filter in H.
Qed.

Lemma first_header_None i d :
  first_header i d = None ↔ i ∉ InvoiceHeader.id <$> invoice_headers d.
Proof.
  unfold first_header. rewrite head_None. split.
  - intros H Hin. apply list_elem_of_fmap in Hin as (h & -> & Hh).
    assert (h ∈ filter (λ h', InvoiceHeader.id h' = InvoiceHeader.id h)
                  (invoice_headers d)) as Hf
      by by apply list_elem_of_filter.
    rewrite H in Hf. by apply elem_of_nil in Hf.
  - intros H. apply filter_none. apply Forall_forall. intros h Hh E.
    apply H. rewrite <- E. apply list_elem_of_fmap. by exists h.
Qed.

Lemma first_header_new i hs row rs bs :
  InvoiceHeader.id row = i →
  i ∉ InvoiceHeader.id <$> hs →
  first_header i {| invoice_headers := hs ++ [row]; invoice_items := rs;
                    invoice_billsundry := bs |} = Some row.
Proof.
  intros Hrow Hi. unfold first_header. cbn. rewrite filter_app.
  assert (filter (λ h, InvoiceHeader.id h = i) hs = []) as ->.
  { apply (first_header_None i {| invoice_headers := hs; invoice_items := rs;
                                   invoice_billsundry := bs |}) in Hi.
    unfold first_header in Hi. cbn in Hi. by apply head_None. }
  rewrite app_nil_l, filter_cons_True by done. done.
Qed.

Lemma first_header_assigned i invoice hs rs bs h :
  head (filter (λ h, InvoiceHeader.id h = i) hs) = Some h →
  first_header i
    {| invoice_headers :=
         (λ h, if bool_decide (InvoiceHeader.id h = i)
               then assign_header invoice h else h) <$> hs;
       invoice_items := rs; invoice_billsundry := bs |}
  = Some (assign_header invoice h).
Proof.
  unfold first_header. cbn. induction hs as [|h' hs IH]; [done|].
  rewrite fmap_cons. rewrite !filter_cons. 
  destruct (decide (InvoiceHeader.id h' = i)) as [E|E].
  - rewrite bool_decide_eq_true_2 by done. cbn.
    rewrite decide_True by done. cbn. by intros [= ->].
  - rewrite bool_decide_eq_false_2 by done. rewrite decide_False by done.
    exact IH.
Qed.

Lemma first_header_deleted i d :
  first_header i
    {| invoice_headers :=
         filter (λ h, InvoiceHeader.id h ≠ i) (invoice_headers d);
       invoice_items := other_items i d;
       invoice_billsundry := other_billsundries i d |} = None.
Proof.
  apply first_header_None. cbn. intros Hin.
  apply list_elem_of_fmap in Hin as (h & -> & Hh).
  by apply list_elem_of_filter in Hh as [? _].
Qed.

(** *** The rows of a header *)

Lemma item_rows_same src k hid items :
  filter (λ r, InvoiceItem.invoice_id r = Some hid) (item_rows src k hid items)
  = item_rows src k hid items.
Proof.
  revert k. induction items as [|item items IH]; intros k; [done|].
  cbn [item_rows]. rewrite filter_cons_True by done. by rewrite IH.
Qed.


Lemma length_item_rows src k hid items :
  length (item_rows src k hid items) = length items.
Proof.
  revert k. induction items as [|item items IH]; intros k; [done|].
  cbn. by rewrite IH.
Qed.

Lemma billsundry_rows_same src k hid bills :
  filter (λ r, InvoiceBillSundry.invoice_id r = Some hid)
    (billsundry_rows src k hid bills)
  = billsundry_rows src k hid bills.
Proof.
  revert k. induction bills as [|bill bills IH]; intros k; [done|].
  cbn [billsundry_rows]. rewrite filter_cons_True by done. by rewrite IH.
Qed.


Lemma item_rows_ids src k hid items :
  InvoiceItem.id <$> item_rows src k hid items = src <$> seq k (length items).
Proof.
  revert k. induction items as [|item items IH]; intros k; [done|].
  cbn [item_rows length seq]. by rewrite !fmap_cons, IH.
Qed.

Lemma billsundry_rows_ids src k hid bills :
  InvoiceBillSundry.id <$> billsundry_rows src k hid bills
  = src <$> seq k (length bills).
Proof.
  revert k. induction bills as [|bill bills IH]; intros k; [done|].
  cbn [billsundry_rows length seq]. by rewrite !fmap_cons, IH.
Qed.

Lemma item_rows_unrelated src k hid other items :
  other ≠ hid →
  filter (λ r, InvoiceItem.invoice_id r = Some other) (item_rows src k hid items)
  = [].
Proof.
  intros Hne. revert k. induction items as [|item items IH]; intros k; [done|].
  cbn [item_rows]. rewrite filter_cons_False by (cbn; congruence). by rewrite IH.
Qed.

Lemma billsundry_rows_unrelated src k hid other bills :
  other ≠ hid →
  filter (λ r, InvoiceBillSundry.invoice_id r = Some other)
    (billsundry_rows src k hid bills)
  = [].
Proof.
  intros Hne. revert k. induction bills as [|bill bills IH]; intros k; [done|].
  cbn [billsundry_rows]. rewrite filter_cons_False by (cbn; congruence).
  by rewrite IH.
Qed.


(** ** Handlers *)

Lemma create_invoice_run w invoice :
  create_fresh w invoice →
  create_invoice invoice (open_session w) =
  (inr (load (header_row (entropy w (drawn w)) invoice)),
   open_session (created w invoice)).
Proof.
  destruct w as [[hs rs bs] src k]. intros (Hn & Hh & Hl & Hb & Hi).
  cbn in Hh, Hb, Hi. apply pk_fresh_1 in Hh.
  unfold create_invoice, add_InvoiceHeader, insert_header, uuid4, open_session.
  repeat (rewrite bind_run; cbn -[first_header PrimFloat.is_nan flush]).
  rewrite Hn. rewrite bool_decide_eq_false_2 by done.
  cbn -[first_header flush].
  repeat (rewrite bind_run; cbn -[first_header flush]).
  rewrite flush_lines_run by done. cbn -[first_header].
  unfold refresh, query_first_header.
  repeat (rewrite bind_run; cbn -[first_header]).
  rewrite first_header_new by done. reflexivity.
Qed.

(** Where a row cannot be inserted, [create_invoice] raises the integrity
    error of the insert, before the commit. *)
Lemma create_invoice_fail w invoice :
  ¬ create_fresh w invoice →
  ∃ c s, create_invoice invoice (open_session w)
           = (inl (IntegrityError c), s) ∧
         committed s = database w.
Proof.
  destruct w as [[hs rs bs] src k]. unfold create_fresh. cbn. intros Hnf.
  unfold create_invoice, add_InvoiceHeader, insert_header, uuid4, open_session.
  repeat (rewrite bind_run; cbn -[first_header PrimFloat.is_nan flush]).
  destruct (PrimFloat.is_nan (InvoiceHeaderSchema.total_amount invoice))
    eqn:Hn; [by eexists _, _|].
  destruct (decide (src k ∈ InvoiceHeader.id <$> hs)) as [Hin|Hh].
  { rewrite bool_decide_eq_true_2 by done. by eexists _, _. }
  rewrite bool_decide_eq_false_2 by done. cbn -[first_header flush].
  repeat (rewrite bind_run; cbn -[first_header flush]).
  match goal with |- context [flush (add_lines invoice ?h) ?s1] =>
    destruct (flush_lines_fail invoice h s1) as (c & s' & -> & Hc) end.
  - cbn. intros (Hl & Hb & Hi). apply Hnf.
    split; [done|]. split; [by apply pk_fresh_1|]. done.
  - by eexists _, _.
Qed.

Lemma update_invoice_run w invoice_id invoice h :
  first_header invoice_id (database w) = Some h →
  update_fresh w invoice_id invoice →
  update_invoice invoice_id invoice (open_session w) =
  (inr (load (assign_header invoice h)),
   open_session (updated w invoice_id invoice)).
Proof.
  destruct w as [[hs rs bs] src k]. intros Hq (Hn & Hl & Hb & Hi).
  cbn in Hb, Hi. cbn -[first_header] in Hq.
  pose proof (first_header_Some _ _ _ Hq) as [Hid _].
  unfold update_invoice, query_first_header, open_session.
  repeat (rewrite bind_run; cbn -[first_header PrimFloat.is_nan flush]).
  rewrite Hq.
  unfold update_header, delete_items_where, delete_billsundries_where.
  repeat (rewrite bind_run; cbn -[first_header PrimFloat.is_nan flush]).
  rewrite Hn.
  repeat (rewrite bind_run; cbn -[first_header PrimFloat.is_nan flush]).
  rewrite flush_lines_run by done. cbn -[first_header].
  unfold refresh, query_first_header.
  repeat (rewrite bind_run; cbn -[first_header]).
  rewrite Hid. rewrite (first_header_assigned _ _ _ _ _ h) by exact Hq.
  reflexivity.
Qed.

Lemma update_invoice_fail w invoice_id invoice h :
  first_header invoice_id (database w) = Some h →
  ¬ update_fresh w invoice_id invoice →
  ∃ c s, update_invoice invoice_id invoice (open_session w)
           = (inl (IntegrityError c), s) ∧
         committed s = database w.
Proof.
  destruct w as [[hs rs bs] src k]. unfold update_fresh. cbn -[first_header].
  intros Hq Hnf.
  unfold update_invoice, query_first_header, open_session.
  repeat (rewrite bind_run; cbn -[first_header PrimFloat.is_nan flush]).
  rewrite Hq.
  unfold update_header, delete_items_where, delete_billsundries_where.
  repeat (rewrite bind_run; cbn -[first_header PrimFloat.is_nan flush]).
  destruct (PrimFloat.is_nan (InvoiceHeaderSchema.total_amount invoice))
    eqn:Hn; [by eexists _, _|].
  repeat (rewrite bind_run; cbn -[first_header PrimFloat.is_nan flush]).
  match goal with |- context [flush (add_lines invoice ?h') ?s1] =>
    destruct (flush_lines_fail invoice h' s1) as (c & s' & -> & Hc) end.
  - cbn. intros (Hl & Hb & Hi). by apply Hnf.
  - by eexists _, _.
Qed.

Lemma delete_invoice_run w invoice_id h :
  first_header invoice_id (database w) = Some h →
  delete_invoice invoice_id (open_session w) =
  (inr "Invoice deleted successfully", open_session (deleted w invoice_id)).
Proof.
  destruct w as [[hs rs bs] src k]. intros Hq. cbn -[first_header] in Hq.
  pose proof (first_header_Some _ _ _ Hq) as [Hid _].
  unfold delete_invoice, query_first_header, open_session.
  repeat (rewrite bind_run; cbn -[first_header]). rewrite Hq.
  unfold delete_header, delete_items_where, delete_billsundries_where.
  repeat (rewrite bind_run; cbn -[first_header]). by rewrite Hid.
Qed.

Lemma get_invoice_run w invoice_id :
  get_invoice invoice_id (open_session w) =
  (match first_header invoice_id (database w) with
   | Some h => inr (load h)
   | None => inl (HTTPException 404 "Invoice not found")
   end, open_session w).
Proof.
  unfold get_invoice, query_first_header. repeat (rewrite bind_run; cbn -[first_header]).
  by destruct (first_header invoice_id (database w)).
Qed.

Lemma list_invoices_run w :
  list_invoices (open_session w) =
  (inr (load <$> invoice_headers (database w)), open_session w).
Proof. reflexivity. Qed.

Lemma update_invoice_not_found w invoice_id invoice :
  first_header invoice_id (database w) = None →
  update_invoice invoice_id invoice (open_session w) =
  (inl (HTTPException 404 "Invoice not found"), open_session w).
Proof.
  intros Hq. unfold update_invoice, query_first_header.
  repeat (rewrite bind_run; cbn -[first_header]). by rewrite Hq.
Qed.

Lemma delete_invoice_not_found w invoice_id :
  first_header invoice_id (database w) = None →
  delete_invoice invoice_id (open_session w) =
  (inl (HTTPException 404 "Invoice not found"), open_session w).
Proof.
  intros Hq. unfold delete_invoice, query_first_header.
  repeat (rewrite bind_run; cbn -[first_header]). by rewrite Hq.
Qed.

(** ** Routes *)

Lemma serve_run {A} (h : Handler A) respond w r s :
  h (open_session w) = (r, s) →
  serve h respond w =
  (match r with
   | inr a => respond (view s) a
   | inl (HTTPException c d) => HTTPError c d
   | inl _ => InternalServerError
   end, close_session s).
Proof. unfold serve. by intros ->. Qed.

Lemma DELETE_invoice_deleted invoice_id w h :
  first_header invoice_id (database w) = Some h →
  DELETE_invoice invoice_id w
  = (MessageResponse "Invoice deleted successfully", deleted w invoice_id).
Proof.
  intros Hq. unfold DELETE_invoice.
  rewrite (serve_run _ _ _ _ _ (delete_invoice_run _ _ _ Hq)).
  by rewrite close_open_session.
Qed.

Lemma DELETE_invoice_not_found invoice_id w :
  first_header invoice_id (database w) = None →
  DELETE_invoice invoice_id w = (HTTPError 404 "Invoice not found", w).
Proof.
  intros Hq. unfold DELETE_invoice.
  rewrite (serve_run _ _ _ _ _ (delete_invoice_not_found _ _ Hq)).
  by rewrite close_open_session.
Qed.

(** The response model refuses every header object: [total_amount] has a
    value, so a validator function runs. *)
Lemma respond_invoice_error d h : respond_invoice d h = InternalServerError.
Proof.
  unfold respond_invoice.
  pose proof (header_validate_never (header_object_attributes d h)) as Hn.
  destruct (InvoiceHeaderSchema_model_validate _) as [t| |]; [|done..].
  by destruct (Hn t).
Qed.

Lemma respond_invoices_cases d hs :
  respond_invoices d hs =
  match hs with
  | [] => InvoiceListResponse []
  | _ :: _ => InternalServerError
  end.
Proof.
  unfold respond_invoices. destruct hs as [|h hs]; [done|].
  rewrite fmap_cons. cbn [validate_list].
  pose proof (header_validate_never (header_object_attributes d h)) as Hn.
  destruct (InvoiceHeaderSchema_model_validate _) as [t|es|e];
    [by destruct (Hn t)| |done].
  by destruct (validate_list _ _ _).
Qed.

Lemma POST_invoices_uncaught body w :
  calls_validator body = true →
  POST_invoices body w = (InternalServerError, w).
Proof.
  intros Hc. unfold POST_invoices. by rewrite header_validate_uncaught.
Qed.

Lemma POST_invoices_refused body w :
  calls_validator body = false →
  ∃ es, InvoiceHeaderSchema_model_validate body = ValidationError es ∧
        POST_invoices body w = (RequestValidationError (in_body es), w).
Proof.
  intros Hc. unfold POST_invoices.
  destruct (header_validate_refused body Hc) as (st & st' & _ & _ & _ & ->).
  eauto.
Qed.

(** The body of an update is answered as that of a create: no body
    reaches a handler. *)
Lemma PUT_invoice_POST invoice_id body w :
  PUT_invoice invoice_id body w = POST_invoices body w.
Proof.
  unfold PUT_invoice, POST_invoices.
  pose proof (header_validate_never body) as Hn.
  destruct (InvoiceHeaderSchema_model_validate body) as [t| |]; [|done..].
  by destruct (Hn t).
Qed.

Lemma GET_invoice_cases invoice_id w :
  GET_invoice invoice_id w =
  (match first_header invoice_id (database w) with
   | Some _ => InternalServerError
   | None => HTTPError 404 "Invoice not found"
   end, w).
Proof.
  unfold GET_invoice. rewrite (serve_run _ _ _ _ _ (get_invoice_run _ _)).
  rewrite close_open_session.
  destruct (first_header invoice_id (database w)); [|done].
  by rewrite respond_invoice_error.
Qed.

Lemma GET_invoices_cases w :
  GET_invoices w =
  (match invoice_headers (database w) with
   | [] => InvoiceListResponse []
   | _ :: _ => InternalServerError
   end, w).
Proof.
  unfold GET_invoices. rewrite (serve_run _ _ _ _ _ (list_invoices_run _)).
  rewrite close_open_session, respond_invoices_cases. cbn.
  by destruct (invoice_headers (database w)).
Qed.

(** *** Consistency of the tables *)

Lemma consistent_create_all : consistent create_all.
Proof. split; constructor. Qed.

Lemma item_rows_refer src k hid items :
  Forall (λ r, InvoiceItem.invoice_id r = Some hid) (item_rows src k hid items).
Proof.
  revert k. induction items as [|item items IH]; intros k; constructor; eauto.
Qed.

Lemma billsundry_rows_refer src k hid bills :
  Forall (λ r, InvoiceBillSundry.invoice_id r = Some hid)
    (billsundry_rows src k hid bills).
Proof.
  revert k. induction bills as [|bill bills IH]; intros k; constructor; eauto.
Qed.

Lemma consistent_created w invoice :
  consistent (database w) → consistent (database (created w invoice)).
Proof.
  intros [Hi Hb]. unfold consistent, created. cbn.
  split; apply Forall_app; split.
  - eapply Forall_impl; [exact Hi|]. intros r (i & Hr & Hin).
    exists i. split; [done|]. rewrite fmap_app. apply elem_of_app. by left.
  - eapply Forall_impl; [apply item_rows_refer|]. intros r Hr.
    eexists. split; [exact Hr|]. rewrite fmap_app. apply elem_of_app.
    right. by apply list_elem_of_singleton.
  - eapply Forall_impl; [exact Hb|]. intros r (i & Hr & Hin).
    exists i. split; [done|]. rewrite fmap_app. apply elem_of_app. by left.
  - eapply Forall_impl; [apply billsundry_rows_refer|]. intros r Hr.
    eexists. split; [exact Hr|]. rewrite fmap_app. apply elem_of_app.
    right. by apply list_elem_of_singleton.
Qed.

Lemma assigned_ids invoice invoice_id (hs : list InvoiceHeader.t) :
  InvoiceHeader.id <$>
    ((λ h, if bool_decide (InvoiceHeader.id h = invoice_id)
           then assign_header invoice h else h) <$> hs)
  = InvoiceHeader.id <$> hs.
Proof.
  rewrite <- list_fmap_compose. apply list_fmap_ext. intros _ h _. cbn.
  by destruct (bool_decide (InvoiceHeader.id h = invoice_id)).
Qed.

Lemma consistent_updated w invoice_id invoice h :
  first_header invoice_id (database w) = Some h →
  consistent (database w) →
  consistent (database (updated w invoice_id invoice)).
Proof.
  intros Hq [Hi Hb]. apply first_header_Some in Hq as [Hid Hh].
  assert (invoice_id ∈ InvoiceHeader.id <$> invoice_headers (database w))
    as Hin by (apply list_elem_of_fmap; by exists h).
  unfold consistent, updated. cbn. rewrite assigned_ids.
  split; apply Forall_app; split.
  - unfold other_items. apply Forall_forall. intros r Hr.
    apply list_elem_of_filter in Hr as [_ Hr].
    rewrite Forall_forall in Hi. by apply Hi.
  - eapply Forall_impl; [apply item_rows_refer|]. intros r Hr. by exists invoice_id.
  - unfold other_billsundries. apply Forall_forall. intros r Hr.
    apply list_elem_of_filter in Hr as [_ Hr].
    rewrite Forall_forall in Hb. by apply Hb.
  - eapply Forall_impl; [apply billsundry_rows_refer|]. intros r Hr.
    by exists invoice_id.
Qed.

Lemma consistent_deleted w invoice_id :
  consistent (database w) → consistent (database (deleted w invoice_id)).
Proof.
  intros [Hi Hb]. unfold consistent, deleted, other_items, other_billsundries.
  cbn. split.
  - apply Forall_forall. intros r Hr. apply list_elem_of_filter in Hr as [Hne Hr].
    rewrite Forall_forall in Hi. destruct (Hi r Hr) as (i & Hri & Hin).
    exists i. split; [done|]. apply list_elem_of_fmap in Hin as (h' & -> & Hh').
    apply list_elem_of_fmap. exists h'. split; [done|].
    apply list_elem_of_filter. split; [congruence | done].
  - apply Forall_forall. intros r Hr. apply list_elem_of_filter in Hr as [Hne Hr].
    rewrite Forall_forall in Hb. destruct (Hb r Hr) as (i & Hri & Hin).
    exists i. split; [done|]. apply list_elem_of_fmap in Hin as (h' & -> & Hh').
    apply list_elem_of_fmap. exists h'. split; [done|].
    apply list_elem_of_filter. split; [congruence | done].
Qed.


(** ** Requests *)

Lemma POST_invoices_cases body w :
  POST_invoices body w = (InternalServerError, w) ∨
  ∃ es, POST_invoices body w = (RequestValidationError es, w).
Proof.
  destruct (calls_validator body) eqn:Hc.
  - left. by apply POST_invoices_uncaught.
  - right. destruct (POST_invoices_refused body w Hc) as (es & _ & H). eauto.
Qed.

(** * The claims *)

(** C1. A payload in which an item has an [amount], whether or not it is
    its quantity times its price, has [validate_amount] called on that
    amount. The call raises [TypeError] at line 59, which is no
    [ValueError]: create and update answer 500, not a validation error, and
    the stored state is as it was. *)
Theorem C1_item_amount_is_a_server_error body w its i b a :
  InvoiceHeaderSchema.items' body = Given its →
  its !! i = Some b →
  InvoiceItemSchema.amount' b = Given a →
  InvoiceItemSchema_model_validate b = Uncaught not_iterable ∧
  InvoiceHeaderSchema_model_validate body = Uncaught not_iterable ∧
  POST_invoices body w = (InternalServerError, w) ∧
  (∀ invoice_id, PUT_invoice invoice_id body w = (InternalServerError, w)) ∧
  status InternalServerError = 500%Z.
Proof.
  intros Hits Hi Ha.
  assert (calls_validate_amount body = true) as Hc.
  { unfold calls_validate_amount. rewrite Hits.
    eapply existsb_lookup; [exact Hi|]. by rewrite Ha. }
  assert (calls_validator body = true) as Hv
    by (unfold calls_validator; by rewrite Hc).
  split; [by eapply item_validate_given|].
  split; [by rewrite header_validate_uncaught, Hc|].
  split; [by apply POST_invoices_uncaught|].
  split; [|done].
  intros invoice_id. rewrite PUT_invoice_POST. by apply POST_invoices_uncaught.
Qed.

(** C2. A payload that has a [total_amount], whether or not it is the sum
    of the amounts, has a validator function called on it: [validate_amount]
    on an item, or [validate_total_amount], which raises [AttributeError] at
    line 81. Create and update answer 500, no total-mismatch error is
    reported, and the stored state is as it was. *)
Theorem C2_total_amount_is_a_server_error body w t :
  InvoiceHeaderSchema.total_amount' body = Given t →
  InvoiceHeaderSchema_model_validate body =
    Uncaught (if calls_validate_amount body then not_iterable else no_get) ∧
  (∀ data, validate_total_amount t (ValidationInfo data) = inl no_get) ∧
  POST_invoices body w = (InternalServerError, w) ∧
  (∀ invoice_id, PUT_invoice invoice_id body w = (InternalServerError, w)).
Proof.
  intros Ht.
  assert (calls_validator body = true) as Hv.
  { unfold calls_validator. rewrite Ht. apply orb_true_r. }
  split; [by apply header_validate_uncaught|].
  split; [apply validate_total_amount_ValidationInfo|].
  split; [by apply POST_invoices_uncaught|].
  intros invoice_id. rewrite PUT_invoice_POST. by apply POST_invoices_uncaught.
Qed.

(** C3. No create succeeds: no body validates, so every create is answered
    500 or 422 and stores nothing, and [create_invoice] is not called. The
    payload of the spec's example is answered 500. *)
Theorem C3_no_create_succeeds body w :
  (∀ invoice, InvoiceHeaderSchema_model_validate body ≠ Instance invoice) ∧
  (POST_invoices body w = (InternalServerError, w) ∨
   ∃ es, POST_invoices body w = (RequestValidationError es, w)) ∧
  POST_invoices (acme_body (Given "GSTIN-1") 12) w = (InternalServerError, w).
Proof.
  split; [intros invoice; apply header_validate_never|].
  split; [apply POST_invoices_cases|by apply POST_invoices_uncaught].
Qed.

(** C4. [create_invoice], called with an invoice whose rows can be
    inserted, stores the header with [invoice_number] NULL and returns it
    so: the headers it leaves have no number if those before had none. *)
Theorem C4_invoice_number_is_null w invoice :
  create_fresh w invoice →
  let hid := entropy w (drawn w) in
  let s := snd (create_invoice invoice (open_session w)) in
  create_invoice invoice (open_session w)
    = (inr (load (header_row hid invoice)), s) ∧
  committed s = database (created w invoice) ∧
  first_header hid (committed s) = Some (header_row hid invoice) ∧
  InvoiceHeader.invoice_number (header_row hid invoice) = None ∧
  InvoiceHeaderObject.invoice_number (load (header_row hid invoice)) = None ∧
  (Forall (λ h, InvoiceHeader.invoice_number h = None)
     (invoice_headers (database w)) →
   Forall (λ h, InvoiceHeader.invoice_number h = None)
     (invoice_headers (committed s))).
Proof.
  intros Hf hid s. subst hid s. rewrite (create_invoice_run w invoice Hf).
  cbn [snd]. split; [done|]. split; [done|].
  split.
  { destruct Hf as (_ & Hh & _). apply pk_fresh_1 in Hh.
    destruct w as [[hs rs bs] src k]. by apply first_header_new. }
  split; [done|]. split; [done|].
  intros Hall. cbn. apply Forall_app. split; [done|]. by repeat constructor.
Qed.

(** C5. An update of a stored invoice with a payload that has a
    [total_amount] is answered 500: the header and its lines stay as they
    were. *)
Theorem C5_update_is_a_server_error invoice_id body w h t :
  first_header invoice_id (database w) = Some h →
  InvoiceHeaderSchema.total_amount' body = Given t →
  let w' := snd (PUT_invoice invoice_id body w) in
  PUT_invoice invoice_id body w = (InternalServerError, w) ∧
  first_header invoice_id (database w') = Some h ∧
  items_of invoice_id (database w') = items_of invoice_id (database w) ∧
  billsundries_of invoice_id (database w')
    = billsundries_of invoice_id (database w).
Proof.
  intros Hq Ht w'. subst w'.
  assert (PUT_invoice invoice_id body w = (InternalServerError, w)) as ->.
  { rewrite PUT_invoice_POST. apply POST_invoices_uncaught.
    unfold calls_validator. rewrite Ht. apply orb_true_r. }
  done.
Qed.

(** C6. A create stores nothing, and the get of an invoice that is stored
    is answered 500: the response model calls the validator functions on
    what the handler returns. *)
Theorem C6_stored_invoice_is_not_returned invoice_id w h :
  first_header invoice_id (database w) = Some h →
  get_invoice invoice_id (open_session w) = (inr (load h), open_session w) ∧
  respond_invoice (database w) (load h) = InternalServerError ∧
  GET_invoice invoice_id w = (InternalServerError, w) ∧
  (∀ body, snd (POST_invoices body w) = w).
Proof.
  intros Hq.
  split; [by rewrite get_invoice_run, Hq|].
  split; [apply respond_invoice_error|].
  split; [by rewrite GET_invoice_cases, Hq|].
  intros body. destruct (POST_invoices_cases body w) as [-> | [es ->]]; done.
Qed.

(** C7. Deleting a stored invoice answers with the confirmation message and
    removes the header with all of its items and bill sundries; deleting the
    same identifier again answers 404 "Invoice not found". *)
Theorem C7_delete_twice invoice_id w h :
  first_header invoice_id (database w) = Some h →
  let w' := deleted w invoice_id in
  DELETE_invoice invoice_id w
    = (MessageResponse "Invoice deleted successfully", w') ∧
  first_header invoice_id (database w') = None ∧
  (invoice_id ∉ InvoiceHeader.id <$> invoice_headers (database w')) ∧
  items_of invoice_id (database w') = [] ∧
  billsundries_of invoice_id (database w') = [] ∧
  DELETE_invoice invoice_id w' = (HTTPError 404 "Invoice not found", w').
Proof.
  intros Hq w'. subst w'.
  pose proof (first_header_deleted invoice_id (database w)) as Hnone.
  split; [by eapply DELETE_invoice_deleted|].
  split; [done|].
  split; [by apply first_header_None|].
  split.
  { unfold items_of, deleted, other_items. cbn. apply filter_none.
    apply Forall_forall. intros r Hr.
    by apply list_elem_of_filter in Hr as [? _]. }
  split.
  { unfold billsundries_of, deleted, other_billsundries. cbn.
    apply filter_none. apply Forall_forall. intros r Hr.
    by apply list_elem_of_filter in Hr as [? _]. }
  unfold DELETE_invoice.
  rewrite (serve_run _ _ _ _ _
             (delete_invoice_not_found (deleted w invoice_id) _ Hnone)).
  by rewrite close_open_session.
Qed.

(** C8. For an identifier that no stored header has, get and delete answer
    404 "Invoice not found", and so does [update_invoice] once it is called;
    the stored state is as it was. An update request does not reach it: its
    body is answered first, with 500 where it has a [total_amount]. *)
Theorem C8_not_found invoice_id w :
  invoice_id ∉ InvoiceHeader.id <$> invoice_headers (database w) →
  GET_invoice invoice_id w = (HTTPError 404 "Invoice not found", w) ∧
  (∀ invoice,
     serve (update_invoice invoice_id invoice) respond_invoice w
       = (HTTPError 404 "Invoice not found", w)) ∧
  DELETE_invoice invoice_id w = (HTTPError 404 "Invoice not found", w) ∧
  status (HTTPError 404 "Invoice not found") = 404%Z ∧
  (∀ body t,
     InvoiceHeaderSchema.total_amount' body = Given t →
     PUT_invoice invoice_id body w = (InternalServerError, w)) ∧
  (∀ body, ∃ r,
     PUT_invoice invoice_id body w = (r, w) ∧
     (status r = 500%Z ∨ status r = 422%Z)).
Proof.
  intros Hid. apply first_header_None in Hid.
  split; [by rewrite GET_invoice_cases, Hid|].
  split.
  { intros invoice.
    rewrite (serve_run _ _ _ _ _ (update_invoice_not_found _ _ invoice Hid)).
    by rewrite close_open_session. }
  split; [by apply DELETE_invoice_not_found|].
  split; [done|]. split.
  - intros body t Ht. rewrite PUT_invoice_POST. apply POST_invoices_uncaught.
    unfold calls_validator. rewrite Ht. apply orb_true_r.
  - intros body. rewrite PUT_invoice_POST.
    destruct (POST_invoices_cases body w) as [-> | [es ->]]; eexists; eauto.
Qed.

(** C9, as amended. [gstin] is nullable in the table but a required string
    of the request schema: a create or update payload without it is not
    accepted and nothing is persisted, and a validation error that answers
    it reports the field missing, under [body]. *)
Theorem C9_gstin_required body w :
  InvoiceHeaderSchema.gstin' body = Absent →
  (∀ invoice, InvoiceHeaderSchema_model_validate body ≠ Instance invoice) ∧
  (∃ r, POST_invoices body w = (r, w) ∧
        (∀ invoice_id, PUT_invoice invoice_id body w = (r, w)) ∧
        (status r = 500%Z ∨ status r = 422%Z)) ∧
  (∀ es, InvoiceHeaderSchema_model_validate body = ValidationError es →
         missing "gstin" ∈ es ∧
         POST_invoices body w = (RequestValidationError (in_body es), w)) ∧
  (calls_validator body = false →
   ∃ es, InvoiceHeaderSchema_model_validate body = ValidationError es).
Proof.
  intros Hg.
  split; [intros invoice; apply header_validate_never|].
  split.
  { destruct (POST_invoices_cases body w) as [H | [es H]]; eexists;
      (split; [exact H|]); (split; [by intros; rewrite PUT_invoice_POST|]);
      eauto. }
  split.
  - intros es Hes. split; [|unfold POST_invoices; by rewrite Hes].
    destruct (calls_validator body) eqn:Hc.
    + by rewrite header_validate_uncaught in Hes.
    + destruct (header_validate_refused body Hc)
        as (st & st' & _ & _ & Hin & Hv).
      rewrite Hv in Hes. injection Hes as <-.
      apply (Hin "gstin" Missing). unfold header_report. rewrite Hg. cbn.
      do 4 apply list_elem_of_further. apply list_elem_of_here.
  - intros Hc. destruct (POST_invoices_refused body w Hc) as (es & H & _).
    eauto.
Qed.

(** C10. [validate_amount] is called on every item that has an [amount],
    whatever fields the item lacks, and as it is called, with a
    [ValidationInfo], it raises [TypeError] at line 59 before any test: the
    amount does not pass. The test of line 59 lets the amount pass where
    the function is given a [dict] without one of the two keys. *)
Theorem C10_amount_check_raises b a :
  InvoiceItemSchema.amount' b = Given a →
  (∀ data, validate_amount a (ValidationInfo data) = inl not_iterable) ∧
  InvoiceItemSchema_model_validate b = Uncaught not_iterable ∧
  (∀ d : gmap string pyval,
     d !! "quantity" = None ∨ d !! "price" = None →
     validate_amount a (PyDict d) = inr a) ∧
  (∀ (d : gmap string pyval) q p,
     d !! "quantity" = Some (PyFloat q) → d !! "price" = Some (PyFloat p) →
     validate_amount a (PyDict d) =
     if py_ne a (q * p)%float
     then inl (ValueError "Amount must be equal to Quantity * Price")
     else inr a).
Proof.
  intros Ha. split; [apply validate_amount_ValidationInfo|].
  split; [by eapply item_validate_given|].
  split; [intros d; apply validate_amount_dict_skipped|].
  intros d q p. apply validate_amount_dict_checked.
Qed.

(** * Further properties *)

(** ** Request bodies *)

(** X1. Which answer a body gets is decided by whether a validator
    function runs on it: 500 where an item has an [amount] or the body a
    [total_amount], 422 with at least one error otherwise; an update answers
    as a create does, whatever the identifier. *)
Theorem X1_bodies_are_answered_500_or_422 body w :
  (if calls_validator body
   then POST_invoices body w = (InternalServerError, w)
   else ∃ es, es ≠ [] ∧
              POST_invoices body w
                = (RequestValidationError (in_body es), w)) ∧
  (∀ invoice_id, PUT_invoice invoice_id body w = POST_invoices body w).
Proof.
  split; [|intros; apply PUT_invoice_POST].
  destruct (calls_validator body) eqn:Hc; [by apply POST_invoices_uncaught|].
  destruct (header_validate_refused body Hc) as (st & st' & _ & _ & Hin & Hv).
  exists (errors st'). split; [|unfold POST_invoices; by rewrite Hv].
  unfold calls_validator in Hc. apply orb_false_iff in Hc as [_ Ht].
  intros E.
  destruct (InvoiceHeaderSchema.total_amount' body) eqn:Eb; [| |done].
  - specialize (Hin "total_amount" Missing). unfold header_report in Hin.
    rewrite Eb, E in Hin. eapply elem_of_nil. apply Hin. cbn.
    do 7 apply list_elem_of_further. apply list_elem_of_here.
  - specialize (Hin "total_amount" WrongType). unfold header_report in Hin.
    rewrite Eb, E in Hin. eapply elem_of_nil. apply Hin. cbn.
    do 7 apply list_elem_of_further. apply list_elem_of_here.
Qed.

(** X2. A body on which no validator function runs is answered 422 with an
    error for every field that is absent or unfit, each under [body]: those
    of the header under their names, those of a line under the list, the
    index of the line and the name. *)
Theorem X2_refused_body_reports_each_field body w :
  calls_validator body = false →
  ∃ es,
    POST_invoices body w = (RequestValidationError (in_body es), w) ∧
    (∀ name e, (name, Some e) ∈ header_report body →
               {| loc := [Key name]; err := e |} ∈ es) ∧
    (∀ its i b name e,
       InvoiceHeaderSchema.items' body = Given its → its !! i = Some b →
       (name, Some e) ∈ item_report b →
       {| loc := [Key "items"; Index i; Key name]; err := e |} ∈ es) ∧
    (∀ bs i b name e,
       InvoiceHeaderSchema.billsundries' body = Given bs → bs !! i = Some b →
       (name, Some e) ∈ billsundry_report b →
       {| loc := [Key "billsundries"; Index i; Key name]; err := e |} ∈ es).
Proof.
  intros Hc.
  destruct (header_validate_refused body Hc) as (st & st' & Hst & Hincl & Hin & Hv).
  exists (errors st'). split; [unfold POST_invoices; by rewrite Hv|].
  split; [exact Hin|]. split.
  - intros its i b name e Hits Hi Hr. apply Hincl.
    by eapply header_siblings_item.
  - intros bs i b name e Hbs Hi Hr. apply Hincl.
    by eapply header_siblings_billsundry.
Qed.

(** ** The handlers that write *)

(** X3. [create_invoice] and [update_invoice] write all or nothing: where
    the rows can be inserted the whole invoice is stored, and otherwise the
    insert raises an integrity error and the tables stay as they were. *)
Theorem X3_handlers_write_all_or_nothing w invoice :
  (if decide (create_fresh w invoice)
   then create_invoice invoice (open_session w)
        = (inr (load (header_row (entropy w (drawn w)) invoice)),
           open_session (created w invoice))
   else ∃ c s, create_invoice invoice (open_session w)
                 = (inl (IntegrityError c), s) ∧
               committed s = database w) ∧
  (∀ invoice_id h,
     first_header invoice_id (database w) = Some h →
     if decide (update_fresh w invoice_id invoice)
     then update_invoice invoice_id invoice (open_session w)
          = (inr (load (assign_header invoice h)),
             open_session (updated w invoice_id invoice))
     else ∃ c s, update_invoice invoice_id invoice (open_session w)
                   = (inl (IntegrityError c), s) ∧
                 committed s = database w).
Proof.
  split.
  - destruct (decide (create_fresh w invoice));
      [by apply create_invoice_run|by apply create_invoice_fail].
  - intros invoice_id h Hq.
    destruct (decide (update_fresh w invoice_id invoice));
      [by apply update_invoice_run|by eapply update_invoice_fail].
Qed.


Lemma updated_frame w invoice_id invoice other :
  other ≠ invoice_id →
  first_header other (database (updated w invoice_id invoice))
    = first_header other (database w) ∧
  items_of other (database (updated w invoice_id invoice))
    = items_of other (database w) ∧
  billsundries_of other (database (updated w invoice_id invoice))
    = billsundries_of other (database w).
Proof.
  intros Hne. split.
  { unfold first_header, updated. cbn. f_equal.
    induction (invoice_headers (database w)) as [|h hs IH]; [done|].
    rewrite fmap_cons, !filter_cons, IH.
    destruct (decide (InvoiceHeader.id h = invoice_id)) as [E|E].
    - rewrite bool_decide_eq_true_2 by done. cbn.
      rewrite !decide_False by congruence. done.
    - rewrite bool_decide_eq_false_2 by done. done. }
  unfold items_of, billsundries_of, updated, other_items, other_billsundries.
  cbn. rewrite !filter_app.
  rewrite item_rows_unrelated, billsundry_rows_unrelated by done.
  rewrite !app_nil_r, !list_filter_filter. split.
  - apply list_filter_iff. intros r.
    split; [by intros [? _] | intros E; split; [done | congruence]].
  - apply list_filter_iff. intros r.
    split; [by intros [? _] | intros E; split; [done | congruence]].
Qed.

Lemma deleted_frame w invoice_id other :
  other ≠ invoice_id →
  first_header other (database (deleted w invoice_id))
    = first_header other (database w) ∧
  items_of other (database (deleted w invoice_id))
    = items_of other (database w) ∧
  billsundries_of other (database (deleted w invoice_id))
    = billsundries_of other (database w).
Proof.
  intros Hne.
  unfold first_header, items_of, billsundries_of, deleted, other_items,
    other_billsundries. cbn. rewrite !list_filter_filter.
  split; [f_equal|split]; apply list_filter_iff; intros r;
    (split; [by intros [? _] | intros E; split; [done | congruence]]).
Qed.

(** X4. [update_invoice], called on a stored invoice with lines that can
    be inserted, overwrites the header's scalar fields, keeps its
    identifier and sequence number, and replaces its lines by those of the
    new invoice, the bill sundries under the first identifiers drawn; the
    lines of the other invoices stay. *)
Theorem X4_update_invoice_replaces_lines w invoice_id invoice h :
  first_header invoice_id (database w) = Some h →
  update_fresh w invoice_id invoice →
  let m := length (InvoiceHeaderSchema.billsundries invoice) in
  let w' := close_session (snd (update_invoice invoice_id invoice
                                  (open_session w))) in
  w' = updated w invoice_id invoice ∧
  first_header invoice_id (database w') = Some (assign_header invoice h) ∧
  InvoiceHeader.id (assign_header invoice h) = invoice_id ∧
  InvoiceHeader.invoice_number (assign_header invoice h)
    = InvoiceHeader.invoice_number h ∧
  billsundries_of invoice_id (database w')
    = billsundry_rows (entropy w) (drawn w) invoice_id
        (InvoiceHeaderSchema.billsundries invoice) ∧
  items_of invoice_id (database w')
    = item_rows (entropy w) (drawn w + m) invoice_id
        (InvoiceHeaderSchema.items invoice) ∧
  length (items_of invoice_id (database w'))
    = length (InvoiceHeaderSchema.items invoice) ∧
  (∀ other, other ≠ invoice_id →
     first_header other (database w') = first_header other (database w) ∧
     items_of other (database w') = items_of other (database w) ∧
     billsundries_of other (database w')
       = billsundries_of other (database w)).
Proof.
  intros Hq Hf m w'. subst m w'.
  rewrite (update_invoice_run w invoice_id invoice h Hq Hf). cbn [snd].
  rewrite close_open_session.
  pose proof (first_header_Some _ _ _ Hq) as [Hid _].
  assert (items_of invoice_id (database (updated w invoice_id invoice))
          = item_rows (entropy w)
              (drawn w + length (InvoiceHeaderSchema.billsundries invoice))
              invoice_id (InvoiceHeaderSchema.items invoice)) as Hitems.
  { unfold items_of, updated, other_items. cbn.
    rewrite filter_app, item_rows_same.
    rewrite (filter_none _ (filter _ _)); [done|].
    apply Forall_forall. intros r Hr.
    by apply list_elem_of_filter in Hr as [? _]. }
  split; [done|]. split.
  { destruct w as [[hs rs bs] src k]. unfold updated. cbn -[first_header].
    by apply first_header_assigned. }
  split; [done|]. split; [done|]. split.
  { unfold billsundries_of, updated, other_billsundries. cbn.
    rewrite filter_app, billsundry_rows_same.
    rewrite (filter_none _ (filter _ _)); [done|].
    apply Forall_forall. intros r Hr.
    by apply list_elem_of_filter in Hr as [? _]. }
  split; [exact Hitems|].
  split; [by rewrite Hitems, length_item_rows|].
  intros other Hne. by apply updated_frame.
Qed.


(** ** Requests and the store *)

Lemma DELETE_invoice_world invoice_id w :
  snd (DELETE_invoice invoice_id w) =
  match first_header invoice_id (database w) with
  | Some _ => deleted w invoice_id
  | None => w
  end.
Proof.
  destruct (first_header invoice_id (database w)) as [h|] eqn:Hq.
  - by rewrite (DELETE_invoice_deleted _ _ h Hq).
  - by rewrite DELETE_invoice_not_found.
Qed.

(** X6. A delete request leaves every other invoice as it was: its header
    and its lines. *)
Theorem X6_delete_leaves_other_invoices invoice_id other w :
  other ≠ invoice_id →
  let w' := snd (DELETE_invoice invoice_id w) in
  first_header other (database w') = first_header other (database w) ∧
  items_of other (database w') = items_of other (database w) ∧
  billsundries_of other (database w') = billsundries_of other (database w).
Proof.
  intros Hne w'. subst w'. rewrite DELETE_invoice_world.
  destruct (first_header invoice_id (database w)); [|done].
  by apply deleted_frame.
Qed.

(** X7. The list of invoices is answered 200 with an empty list where no
    header is stored, and 500 where one is. *)
Theorem X7_list_invoices w :
  GET_invoices w =
  (match invoice_headers (database w) with
   | [] => InvoiceListResponse []
   | _ :: _ => InternalServerError
   end, w) ∧
  status (InvoiceListResponse []) = 200%Z.
Proof. split; [apply GET_invoices_cases|done]. Qed.

Lemma route_world req w :
  snd (route req w) = w ∨
  ∃ invoice_id h, req = Delete invoice_id ∧
                  first_header invoice_id (database w) = Some h ∧
                  snd (route req w) = deleted w invoice_id.
Proof.
  destruct req as [body|invoice_id| |invoice_id body|invoice_id]; cbn [route].
  - left. destruct (POST_invoices_cases body w) as [-> | [es ->]]; done.
  - left. by rewrite GET_invoice_cases.
  - left. by rewrite GET_invoices_cases.
  - left. rewrite PUT_invoice_POST.
    destruct (POST_invoices_cases body w) as [-> | [es ->]]; done.
  - rewrite DELETE_invoice_world.
    destruct (first_header invoice_id (database w)) as [h|] eqn:Hq;
      [right; eauto|by left].
Qed.

(** X8. No request adds a row or changes one: after a request the store is
    the store before it, or the request was the delete of a stored invoice
    and the store is that one without the invoice. A store without headers
    stays as it is under every sequence of requests. *)
Theorem X8_requests_only_delete req w :
  (snd (route req w) = w ∨
   ∃ invoice_id h, req = Delete invoice_id ∧
                   first_header invoice_id (database w) = Some h ∧
                   snd (route req w) = deleted w invoice_id) ∧
  (invoice_headers (database w) = [] → ∀ reqs, run reqs w = w).
Proof.
  split; [apply route_world|].
  intros Hw reqs. unfold run. induction reqs as [|r reqs IH]; [done|].
  cbn [fold_left].
  destruct (route_world r w) as [-> | (invoice_id & h & _ & Hq & _)];
    [exact IH|].
  apply first_header_Some in Hq as [_ Hin]. rewrite Hw in Hin.
  by apply elem_of_nil in Hin.
Qed.

(** ** Invariants of the tables *)

Lemma NoDup_app_fresh src k n (existing : list string) :
  NoDup existing → pk_fresh src k n existing →
  NoDup (existing ++ (src <$> seq k n)).
Proof.
  intros Hnd [Hnew Hall]. apply NoDup_app. split; [done|]. split; [|done].
  intros x Hx Hin. rewrite Forall_forall in Hall. by apply (Hall x Hin).
Qed.

Lemma NoDup_fmap_filter {A B} (f : A → B) (P : A → Prop)
    `{!∀ x, Decision (P x)} (l : list A) :
  NoDup (f <$> l) → NoDup (f <$> filter P l).
Proof.
  induction l as [|x l IH]; [done|]. rewrite fmap_cons, filter_cons.
  intros [Hx Hl]%NoDup_cons. destruct (decide (P x)); [|by apply IH].
  rewrite fmap_cons. apply NoDup_cons. split; [|by apply IH].
  intros Hin. apply Hx. apply list_elem_of_fmap in Hin as (y & -> & Hy).
  apply list_elem_of_filter in Hy as [_ Hy]. apply list_elem_of_fmap.
  by exists y.
Qed.


Lemma store_sound_created w invoice :
  create_fresh w invoice →
  store_sound (database w) → store_sound (database (created w invoice)).
Proof.
  intros Hf (Hc & (Nh & Ni & Nb) & Hn).
  pose proof Hf as (_ & Hh & _ & Hb & Hi).
  split; [|split].
  - by apply consistent_created.
  - unfold keys_unique, created. cbn.
    rewrite !fmap_app, item_rows_ids, billsundry_rows_ids.
    split; [|split].
    + by apply (NoDup_app_fresh (entropy w) (drawn w) 1).
    + by apply NoDup_app_fresh.
    + by apply NoDup_app_fresh.
  - unfold created. cbn. apply Forall_app. split; [done|].
    by repeat constructor.
Qed.

Lemma store_sound_updated w invoice_id invoice h :
  first_header invoice_id (database w) = Some h →
  update_fresh w invoice_id invoice →
  store_sound (database w) →
  store_sound (database (updated w invoice_id invoice)).
Proof.
  intros Hq (_ & _ & Hb & Hi) (Hc & (Nh & Ni & Nb) & Hn).
  split; [|split].
  - by eapply consistent_updated.
  - unfold keys_unique, updated. cbn.
    rewrite assigned_ids, !fmap_app, item_rows_ids, billsundry_rows_ids.
    split; [done|]. split.
    + apply NoDup_app_fresh; [|done]. by apply NoDup_fmap_filter.
    + apply NoDup_app_fresh; [|done]. by apply NoDup_fmap_filter.
  - unfold updated. cbn. apply Forall_fmap.
    eapply Forall_impl; [exact Hn|]. intros h' Hh'. cbn.
    by destruct (bool_decide _).
Qed.

Lemma store_sound_deleted w invoice_id :
  store_sound (database w) → store_sound (database (deleted w invoice_id)).
Proof.
  intros (Hc & (Nh & Ni & Nb) & Hn). split; [|split].
  - by apply consistent_deleted.
  - unfold keys_unique, deleted. cbn.
    split; [|split]; by apply NoDup_fmap_filter.
  - unfold deleted. cbn. apply Forall_forall. intros h' Hh'.
    apply list_elem_of_filter in Hh' as [_ Hh'].
    rewrite Forall_forall in Hn. by apply Hn.
Qed.

(** X9. Whatever the three writing handlers commit keeps the tables sound:
    every line refers to a stored header, no two rows of a table share a
    key, and no header has a sequence number. *)
Theorem X9_handlers_keep_the_store_sound w invoice invoice_id :
  store_sound (database w) →
  store_sound (committed (snd (create_invoice invoice (open_session w)))) ∧
  store_sound
    (committed (snd (update_invoice invoice_id invoice (open_session w)))) ∧
  store_sound (committed (snd (delete_invoice invoice_id (open_session w)))).
Proof.
  intros Hs. split; [|split].
  - destruct (decide (create_fresh w invoice)) as [Hf|Hf].
    + rewrite (create_invoice_run w invoice Hf). cbn.
      by apply (store_sound_created w invoice).
    + destruct (create_invoice_fail w invoice Hf) as (c & s & -> & Hc).
      cbn. by rewrite Hc.
  - destruct (first_header invoice_id (database w)) as [h|] eqn:Hq.
    + destruct (decide (update_fresh w invoice_id invoice)) as [Hf|Hf].
      * rewrite (update_invoice_run w invoice_id invoice h Hq Hf). cbn.
        by apply (store_sound_updated w invoice_id invoice h).
      * destruct (update_invoice_fail w invoice_id invoice h Hq Hf)
          as (c & s & -> & Hc).
        cbn. by rewrite Hc.
    + by rewrite update_invoice_not_found.
  - destruct (first_header invoice_id (database w)) as [h|] eqn:Hq.
    + rewrite (delete_invoice_run w invoice_id h Hq). cbn.
      by apply (store_sound_deleted w invoice_id).
    + by rewrite delete_invoice_not_found.
Qed.

End Numeric.

(** * The statements on the sample data

    The [Numeric] columns are read [as_written] in these examples; the
    statements above hold for every reading. *)

Ltac by_computation := vm_compute; reflexivity.
Ltac by_decision := apply (bool_decide_unpack _); vm_compute; exact I.
Ltac by_membership :=
  cbn; repeat first [apply list_elem_of_here | apply list_elem_of_further].

Lemma C1_witness :
  py_ne 11 (2 * 5)%float = true ∧
  InvoiceItemSchema_model_validate (item_body "Widget" 2 5 11)
    = Uncaught not_iterable ∧
  POST_invoices float as_written as_written (overcharged_body 13) acme_world
    = (InternalServerError, acme_world) ∧
  PUT_invoice float as_written as_written "u" (overcharged_body 13) acme_world
    = (InternalServerError, acme_world).
Proof.
  pose proof (C1_item_amount_is_a_server_error float as_written as_written
                (overcharged_body 13) acme_world
                [item_body "Widget" 2 5 11] 0 (item_body "Widget" 2 5 11) 11
                eq_refl eq_refl eq_refl) as (Hi & _ & Hp & Hu & _).
  split; [by_computation|]. split; [exact Hi|].
  split; [exact Hp|exact (Hu "u")].
Defined.

Lemma C2_witness :
  py_ne 11 (10 + 2)%float = true ∧
  POST_invoices float as_written as_written
    (acme_body (Given "GSTIN-1") 11) acme_world
    = (InternalServerError, acme_world) ∧
  PUT_invoice float as_written as_written "u"
    (acme_body (Given "GSTIN-1") 11) acme_world
    = (InternalServerError, acme_world) ∧
  InvoiceHeaderSchema_model_validate
    (invoice_body (Given "GSTIN-1") [] [freight_body] (Given 5%float))
    = Uncaught no_get.
Proof.
  pose proof (C2_total_amount_is_a_server_error float as_written as_written
                (acme_body (Given "GSTIN-1") 11) acme_world 11 eq_refl)
    as (_ & _ & Hp & Hu).
  pose proof (C2_total_amount_is_a_server_error float as_written as_written
                (invoice_body (Given "GSTIN-1") [] [freight_body]
                   (Given 5%float)) acme_world 5 eq_refl)
    as (Hv & _).
  split; [by_computation|]. split; [exact Hp|]. split; [exact (Hu "u")|].
  exact Hv.
Defined.

Lemma C4_witness :
  create_fresh fresh_world acme ∧
  create_fresh acme_world gadgets ∧
  committed (snd (create_invoice float as_written acme
                    (open_session fresh_world)))
    = database acme_world ∧
  committed (snd (create_invoice float as_written gadgets
                    (open_session acme_world)))
    = database both_world ∧
  InvoiceHeader.invoice_number <$> invoice_headers (database both_world)
    = [None; None].
Proof.
  assert (create_fresh fresh_world acme) as Hf by by_decision.
  assert (create_fresh acme_world gadgets) as Hg by by_decision.
  pose proof (C4_invoice_number_is_null float as_written fresh_world acme Hf)
    as (_ & Ha & _).
  pose proof (C4_invoice_number_is_null float as_written acme_world gadgets Hg)
    as (_ & Hb & _).
  split; [exact Hf|]. split; [exact Hg|]. split; [exact Ha|].
  split; [exact Hb|]. by_computation.
Defined.

Lemma C5_witness :
  first_header "u" (database gadgets_world) = Some (header_row "u" gadgets) ∧
  length (items_of "u" (database gadgets_world)) = 3 ∧
  PUT_invoice float as_written as_written "u"
    (acme_body (Given "GSTIN-1") 12) gadgets_world
    = (InternalServerError, gadgets_world) ∧
  items_of "u"
    (database (snd (PUT_invoice float as_written as_written "u"
                      (acme_body (Given "GSTIN-1") 12) gadgets_world)))
    = items_of "u" (database gadgets_world).
Proof.
  assert (first_header "u" (database gadgets_world)
          = Some (header_row "u" gadgets)) as Hq by by_computation.
  pose proof (C5_update_is_a_server_error float as_written as_written "u"
                (acme_body (Given "GSTIN-1") 12) gadgets_world
                (header_row "u" gadgets) 12 Hq eq_refl) as (Hp & _ & Hi & _).
  split; [exact Hq|]. split; [by_computation|]. split; [exact Hp|exact Hi].
Defined.

Lemma C6_witness :
  first_header "u" (database acme_world) = Some (header_row "u" acme) ∧
  GET_invoice float as_written as_written "u" acme_world
    = (InternalServerError, acme_world) ∧
  snd (POST_invoices float as_written as_written
         (acme_body (Given "GSTIN-1") 12) acme_world) = acme_world.
Proof.
  assert (first_header "u" (database acme_world)
          = Some (header_row "u" acme)) as Hq by by_computation.
  pose proof (C6_stored_invoice_is_not_returned float as_written as_written
                "u" acme_world (header_row "u" acme) Hq) as (_ & _ & Hg & Hp).
  split; [exact Hq|]. split; [exact Hg|].
  exact (Hp (acme_body (Given "GSTIN-1") 12)).
Defined.

Lemma C7_witness :
  first_header "u" (database acme_world) = Some (header_row "u" acme) ∧
  DELETE_invoice "u" acme_world
    = (MessageResponse "Invoice deleted successfully", deleted acme_world "u") ∧
  database (deleted acme_world "u") = create_all ∧
  DELETE_invoice "u" (deleted acme_world "u")
    = (HTTPError 404 "Invoice not found", deleted acme_world "u").
Proof.
  assert (first_header "u" (database acme_world)
          = Some (header_row "u" acme)) as Hq by by_computation.
  pose proof (C7_delete_twice "u" acme_world (header_row "u" acme) Hq) as H.
  split; [exact Hq|]. split; [exact (proj1 H)|]. split; [by_computation|].
  exact (proj2 (proj2 (proj2 (proj2 (proj2 H))))).
Defined.

Lemma C8_witness :
  ("missing" ∉ InvoiceHeader.id <$> invoice_headers (database acme_world)) ∧
  GET_invoice float as_written as_written "missing" acme_world
    = (HTTPError 404 "Invoice not found", acme_world) ∧
  serve (update_invoice float as_written "missing" acme)
    (respond_invoice float as_written as_written) acme_world
    = (HTTPError 404 "Invoice not found", acme_world) ∧
  DELETE_invoice "missing" acme_world
    = (HTTPError 404 "Invoice not found", acme_world) ∧
  PUT_invoice float as_written as_written "missing"
    (acme_body (Given "GSTIN-1") 12) acme_world
    = (InternalServerError, acme_world).
Proof.
  assert ("missing" ∉ InvoiceHeader.id <$> invoice_headers (database acme_world))
    as Hid by by_decision.
  pose proof (C8_not_found float as_written as_written "missing" acme_world Hid)
    as (Hg & Hu & Hd & _ & Hp & _).
  split; [exact Hid|]. split; [exact Hg|]. split; [exact (Hu acme)|].
  split; [exact Hd|].
  exact (Hp (acme_body (Given "GSTIN-1") 12) 12%float eq_refl).
Defined.

(** C9, the claim as stated: the payload of the spec's example without
    [gstin] is not accepted, by create or by update, and no header is
    stored. *)
Lemma C9_omitted_gstin_not_accepted :
  POST_invoices float as_written as_written (acme_body Absent 12) fresh_world
    = (InternalServerError, fresh_world) ∧
  invoice_headers (database fresh_world) = [] ∧
  PUT_invoice float as_written as_written "u" (acme_body Absent 12) acme_world
    = (InternalServerError, acme_world) ∧
  InvoiceHeader.gstin <$> invoice_headers (database acme_world)
    = [Some "GSTIN-1"].
Proof. repeat split; by_computation. Qed.

Lemma C9_witness :
  calls_validator draft_body = false ∧
  ∃ es,
    InvoiceHeaderSchema_model_validate draft_body = ValidationError es ∧
    missing "gstin" ∈ es ∧
    POST_invoices float as_written as_written draft_body fresh_world
      = (RequestValidationError (in_body es), fresh_world).
Proof.
  pose proof (C9_gstin_required float as_written as_written draft_body
                fresh_world eq_refl) as (_ & _ & Hm & He).
  split; [reflexivity|].
  destruct (He eq_refl) as [es Hes]. exists es. split; [exact Hes|].
  exact (Hm es Hes).
Defined.

Lemma C10_witness :
  InvoiceItemSchema.quantity' unquantified_body = Absent ∧
  InvoiceItemSchema_model_validate unquantified_body = Uncaught not_iterable ∧
  validate_amount 11 (PyDict {[ "price" := PyFloat 5 ]}) = inr 11%float.
Proof.
  pose proof (C10_amount_check_raises unquantified_body 11 eq_refl)
    as (_ & Hv & Hd & _).
  split; [reflexivity|]. split; [exact Hv|].
  apply Hd. left. by_computation.
Defined.

Lemma X2_witness :
  calls_validator draft_body = false ∧
  ∃ es,
    POST_invoices float as_written as_written draft_body fresh_world
      = (RequestValidationError (in_body es), fresh_world) ∧
    missing "gstin" ∈ es ∧
    missing "total_amount" ∈ es ∧
    {| loc := [Key "items"; Index 0; Key "price"]; err := WrongType |} ∈ es ∧
    {| loc := [Key "items"; Index 0; Key "amount"]; err := Missing |} ∈ es.
Proof.
  destruct (X2_refused_body_reports_each_field float as_written as_written
              draft_body fresh_world eq_refl) as (es & Hp & Hh & Hi & _).
  split; [reflexivity|]. exists es. split; [exact Hp|].
  split; [apply (Hh "gstin" Missing); by_membership|].
  split; [apply (Hh "total_amount" Missing); by_membership|].
  split.
  - apply (Hi _ 0 _ "price" WrongType eq_refl eq_refl). by_membership.
  - apply (Hi _ 0 _ "amount" Missing eq_refl eq_refl). by_membership.
Defined.

Lemma X4_witness :
  first_header "u" (database gadgets_world) = Some (header_row "u" gadgets) ∧
  update_fresh gadgets_world "u" acme ∧
  length (items_of "u" (database gadgets_world)) = 3 ∧
  length (items_of "u"
            (database (close_session
               (snd (update_invoice float as_written "u" acme
                       (open_session gadgets_world)))))) = 1 ∧
  InvoiceBillSundry.id <$>
    billsundries_of "u"
      (database (close_session
         (snd (update_invoice float as_written "u" acme
                 (open_session gadgets_world))))) = ["uIIII"].
Proof.
  assert (first_header "u" (database gadgets_world)
          = Some (header_row "u" gadgets)) as Hq by by_computation.
  assert (update_fresh gadgets_world "u" acme) as Hf by by_decision.
  pose proof (X4_update_invoice_replaces_lines float as_written gadgets_world
                "u" acme (header_row "u" gadgets) Hq Hf)
    as (_ & _ & _ & _ & Hb & _ & Hl & _).
  split; [exact Hq|]. split; [exact Hf|]. split; [by_computation|].
  split; [exact Hl|].
  rewrite Hb. by_computation.
Defined.


Lemma X6_witness :
  "uIII" ≠ "u" ∧
  first_header "uIII" (database (snd (DELETE_invoice "u" both_world)))
    = Some (header_row "uIII" gadgets) ∧
  length (items_of "uIII" (database (snd (DELETE_invoice "u" both_world))))
    = 3 ∧
  first_header "u" (database (snd (DELETE_invoice "u" both_world))) = None.
Proof.
  assert ("uIII" ≠ "u") as Hne by done.
  pose proof (X6_delete_leaves_other_invoices "u" "uIII" both_world Hne)
    as (Hh & Hi & _).
  split; [exact Hne|]. split; [rewrite Hh; by_computation|].
  split; [rewrite Hi; by_computation|]. by_computation.
Defined.

Lemma X9_witness :
  store_sound (database acme_world) ∧
  store_sound
    (committed (snd (create_invoice float as_written gadgets
                       (open_session acme_world)))) ∧
  store_sound
    (committed (snd (update_invoice float as_written "u" gadgets
                       (open_session acme_world)))) ∧
  store_sound
    (committed (snd (delete_invoice "u" (open_session acme_world)))).
Proof.
  assert (store_sound (database acme_world)) as Hs.
  { apply store_sound_created; [by_decision|].
    split; [apply consistent_create_all|].
    split; [|constructor]. repeat split; constructor. }
  split; [exact Hs|].
  exact (X9_handlers_keep_the_store_sound float as_written acme_world gadgets
           "u" Hs).
Defined.
